(** * GuardianEye: the network-graph adapter, force simulation, label
      rendering and hit-testing, embedded from
      [frontend/src/api/adapters.ts], [frontend/src/pages/NetworkPage.tsx]
      and [frontend/src/components/NetworkGraph.jsx]. *)

From Stdlib Require Import ZArith Reals Lra Lia.
From Stdlib Require PrimFloat Uint63 SpecFloat FloatOps FloatAxioms.
From stdpp Require Import base option list strings gmap pretty.

Set Default Proof Using "Type".

(** ** JavaScript numbers

    The source computes on JS numbers.  The operations it uses are
    collected in one interface so that each function is translated once
    and then read over IEEE-754 doubles (as the code runs), over the
    reals extended with the infinities and NaN, or over the reals.
    Statements about what the running code computes are made for every
    instance or for the doubles.  The extended reals serve for
    statements that hold as long as arithmetic on finite values does
    not overflow.  The reals serve for the exact quantity that a
    computed one is compared with, and for bounds that rounding to
    nearest preserves. *)

Class JSNumber (num : Type) := {
  nadd : num -> num -> num;          (* a + b *)
  nsub : num -> num -> num;          (* a - b *)
  nmul : num -> num -> num;          (* a * b *)
  ndiv : num -> num -> num;          (* a / b *)
  nsqrt : num -> num;                (* Math.sqrt *)
  nmax : num -> num -> num;          (* Math.max *)
  nmin : num -> num -> num;          (* Math.min *)
  nltb : num -> num -> bool;         (* a < b *)
  ntruthy : num -> bool;             (* ToBoolean: false on 0 and NaN *)
  nofZ : Z -> num                    (* integer literal *)
}.

(** [a || b] on numbers. *)
Definition nor {num} `{JSNumber num} (a b : num) : num :=
  if ntruthy a then a else b.

(** A decimal literal [m / 10^k]; a correctly rounded division of two
    exactly representable integers is the double nearest to the literal. *)
Definition ndec {num} `{JSNumber num} (m : Z) (k : Z) : num :=
  ndiv (nofZ m) (nofZ (10 ^ k)).

(** *** Exact real arithmetic

    No rounding, no overflow and no NaN; this is not how the code
    computes. *)

Definition Rltb (a b : R) : bool := if Rlt_dec a b then true else false.
Definition Rtruthy (a : R) : bool := if Req_dec_T a 0 then false else true.

#[export] Instance R_JSNumber : JSNumber R := {
  nadd := Rplus; nsub := Rminus; nmul := Rmult; ndiv := Rdiv;
  nsqrt := sqrt; nmax := Rmax; nmin := Rmin;
  nltb := Rltb; ntruthy := Rtruthy; nofZ := IZR
}.

(** *** IEEE-754 binary64 *)

Module F64.
Definition is_zero (a : PrimFloat.float) : bool := PrimFloat.eqb a PrimFloat.zero.
Definition truthy (a : PrimFloat.float) : bool := negb (is_zero a || PrimFloat.is_nan a).
Definition finite (a : PrimFloat.float) : bool := PrimFloat.is_finite a.

(* Math.max: NaN if either argument is NaN, +0 above -0. *)
Definition max (a b : PrimFloat.float) : PrimFloat.float :=
  if PrimFloat.is_nan a || PrimFloat.is_nan b then PrimFloat.nan
  else if PrimFloat.ltb a b then b
  else if PrimFloat.ltb b a then a
  else if PrimFloat.get_sign a then b else a.

(* Math.min: NaN if either argument is NaN, -0 below +0. *)
Definition min (a b : PrimFloat.float) : PrimFloat.float :=
  if PrimFloat.is_nan a || PrimFloat.is_nan b then PrimFloat.nan
  else if PrimFloat.ltb a b then a
  else if PrimFloat.ltb b a then b
  else if PrimFloat.get_sign a then a else b.

Definition ofZ (z : Z) : PrimFloat.float :=
  match z with
  | Z0 => PrimFloat.zero
  | Zpos _ => PrimFloat.of_uint63 (Uint63.of_Z z)
  | Zneg p => PrimFloat.opp (PrimFloat.of_uint63 (Uint63.of_Z (Zpos p)))
  end.
End F64.

#[export] Instance float_JSNumber : JSNumber PrimFloat.float := {
  nadd := PrimFloat.add; nsub := PrimFloat.sub;
  nmul := PrimFloat.mul; ndiv := PrimFloat.div;
  nsqrt := PrimFloat.sqrt; nmax := F64.max; nmin := F64.min;
  nltb := PrimFloat.ltb; ntruthy := F64.truthy; nofZ := F64.ofZ
}.

(** *** Real arithmetic extended with the IEEE special values

    Finite values are real numbers and operations on them are exact (no
    rounding, no overflow, one zero); the infinities and NaN appear and
    combine as in IEEE-754. *)
Module XReal.
Inductive xreal := Fin (r : R) | PInf | NInf | NaN.

Definition neg (a : xreal) : xreal :=
  match a with Fin r => Fin (- r) | PInf => NInf | NInf => PInf | NaN => NaN end.

Definition add (a b : xreal) : xreal :=
  match a, b with
  | NaN, _ | _, NaN => NaN
  | Fin p, Fin q => Fin (p + q)
  | PInf, NInf | NInf, PInf => NaN
  | PInf, _ | _, PInf => PInf
  | NInf, _ | _, NInf => NInf
  end.

Definition sub (a b : xreal) : xreal := add a (neg b).

(** An infinity of sign [pos] times (or a non-zero value of sign [pos]
    over a zero divided into) the finite [r]. *)
Definition scale_inf (pos : bool) (r : R) : xreal :=
  if Req_dec_T r 0 then NaN
  else if Rlt_dec 0 r then (if pos then PInf else NInf)
  else (if pos then NInf else PInf).

Definition mul (a b : xreal) : xreal :=
  match a, b with
  | NaN, _ | _, NaN => NaN
  | Fin p, Fin q => Fin (p * q)
  | Fin p, PInf | PInf, Fin p => scale_inf true p
  | Fin p, NInf | NInf, Fin p => scale_inf false p
  | PInf, PInf | NInf, NInf => PInf
  | PInf, NInf | NInf, PInf => NInf
  end.

Definition div (a b : xreal) : xreal :=
  match a, b with
  | NaN, _ | _, NaN => NaN
  | Fin p, Fin q => if Req_dec_T q 0 then scale_inf true p else Fin (p / q)
  | Fin _, (PInf | NInf) => Fin 0
  | PInf, Fin q => if Rlt_dec q 0 then NInf else PInf
  | NInf, Fin q => if Rlt_dec q 0 then PInf else NInf
  | (PInf | NInf), (PInf | NInf) => NaN
  end.

Definition sqrt (a : xreal) : xreal :=
  match a with
  | Fin p => if Rlt_dec p 0 then NaN else Fin (R_sqrt.sqrt p)
  | PInf => PInf
  | NInf | NaN => NaN
  end.

Definition ltb (a b : xreal) : bool :=
  match a, b with
  | Fin p, Fin q => Rltb p q
  | NInf, (Fin _ | PInf) | Fin _, PInf => true
  | _, _ => false
  end.

Definition is_nan (a : xreal) : bool :=
  match a with NaN => true | _ => false end.

Definition max (a b : xreal) : xreal :=
  if is_nan a || is_nan b then NaN else if ltb a b then b else a.

Definition min (a b : xreal) : xreal :=
  if is_nan a || is_nan b then NaN else if ltb b a then b else a.

Definition truthy (a : xreal) : bool :=
  match a with Fin p => Rtruthy p | PInf | NInf => true | NaN => false end.

(** [Number.isFinite]. *)
Definition finite (a : xreal) : Prop :=
  match a with Fin _ => True | _ => False end.

(** Finite and different from zero. *)
Definition nonzero (a : xreal) : Prop :=
  match a with Fin r => r <> 0%R | _ => False end.
End XReal.

#[export] Instance xreal_JSNumber : JSNumber XReal.xreal := {
  nadd := XReal.add; nsub := XReal.sub;
  nmul := XReal.mul; ndiv := XReal.div;
  nsqrt := XReal.sqrt; nmax := XReal.max; nmin := XReal.min;
  nltb := XReal.ltb; ntruthy := XReal.truthy;
  nofZ := fun z => XReal.Fin (IZR z)
}.

(** [ToNumber(undefined)], the operand that arithmetic gets from a
    property that is not there. *)
Class JSNaN (num : Type) := { nnan : num }.

#[export] Instance float_JSNaN : JSNaN PrimFloat.float := { nnan := PrimFloat.nan }.
#[export] Instance xreal_JSNaN : JSNaN XReal.xreal := { nnan := XReal.NaN }.

(** ** Data model *)

(** [NetworkNode["type"]] of [data/mockData]. *)
Inductive NodeType := phone | url | company | report.

#[export] Instance NodeType_eq_dec : EqDecision NodeType.
Proof. solve_decision. Defined.

(** [BackendGraphData] of [api/client.ts].  The adapter guards [nodes]
    and [edges] with [|| []], so both may be absent. *)
Record BackendNode := {
  bn_id : string; bn_label : string; bn_type : string
}.
Record BackendEdge := {
  be_from : string; be_to : string; be_label : string
}.
Record BackendGraphData := {
  bg_nodes : option (list BackendNode);
  bg_edges : option (list BackendEdge);
  bg_total_reports : option Z
}.

(** [NetworkNode] of [data/mockData]. *)
Record NetworkNode (num : Type) := {
  id : string;
  label : string;
  type : NodeType;
  x : num; y : num; vx : num; vy : num;
  connections : list string
}.
Arguments id {num}. Arguments label {num}. Arguments type {num}.
Arguments x {num}. Arguments y {num}. Arguments vx {num}. Arguments vy {num}.
Arguments connections {num}.

(** ** Plain JS objects used as maps

    [edgeMap], [nodeMap] and the lookup tables of the adapters are
    objects created by an object literal: a key that is not an own
    property is looked up in [Object.prototype]. *)

Module PlainObject.

(** The property names every object inherits from [Object.prototype]. *)
Definition prototype_keys : list string :=
  [ "constructor"; "__defineGetter__"; "__defineSetter__"; "hasOwnProperty";
    "__lookupGetter__"; "__lookupSetter__"; "isPrototypeOf";
    "propertyIsEnumerable"; "toString"; "valueOf"; "__proto__";
    "toLocaleString" ].

Definition inherited (k : string) : bool := bool_decide (k ∈ prototype_keys).

(** What [obj[k]] finds in an object with the own properties [m]: an
    own value, an inherited member (a function, or [Object.prototype]
    itself for ["__proto__"]: truthy, neither array nor string), or
    [undefined]. *)
Inductive Read (A : Type) := Own (a : A) | Inherited | Absent.
Arguments Own {A}.
Arguments Inherited {A}.
Arguments Absent {A}.

Definition read {A : Type} (m : gmap string A) (k : string) : Read A :=
  match m !! k with
  | Some a => Own a
  | None => if inherited k then Inherited else Absent
  end.

(** A value that is either of the expected type or an inherited member
    of [Object.prototype] found under the key [k]. *)
Inductive Value (A : Type) := Val (a : A) | Member (k : string).
Arguments Val {A}.
Arguments Member {A}.

(** How a statement list ends: normally, or by a thrown [TypeError];
    either way with the state reached. *)
Inductive Outcome (A : Type) := Normal (a : A) | Threw (a : A).
Arguments Normal {A}.
Arguments Threw {A}.

Definition outcome_bind {A : Type} (o : Outcome A) (f : A -> Outcome A)
  : Outcome A :=
  match o with
  | Normal a => f a
  | Threw a => Threw a
  end.
(** The state reached, however the statement list ended. *)
Definition state {A : Type} (o : Outcome A) : A :=
  match o with Normal a | Threw a => a end.
End PlainObject.

(** ** adapters.ts *)

(** [a || b] on strings: the empty string is falsy. *)
Definition sor (a b : string) : string :=
  if decide (a = "") then b else a.

Definition mapNodeType (t : string) : NodeType :=
  if decide (t = "phone_number" \/ t = "PhoneNumber") then phone
  else if decide (t = "url" \/ t = "URL" \/ t = "email_address" \/ t = "EmailAddress") then url
  else if decide (t = "company_name" \/ t = "CompanyImpersonated") then company
  else report.

(** The functions of this section compute with the own properties of
    [edgeMap] alone; [EdgeMap] below adds the lookups in
    [Object.prototype] and what they make the adapter throw. *)

(** [edgeMap[k] || []]. *)
Definition edgeMap_get (m : gmap string (list string)) (k : string) : list string :=
  default [] (m !! k).

(** [if (!edgeMap[k]) edgeMap[k] = []]: an array, even empty, is truthy. *)
Definition edgeMap_init (m : gmap string (list string)) (k : string)
  : gmap string (list string) :=
  match m !! k with Some _ => m | None => <[k := []]> m end.

(** [edgeMap[k].push(v)]. *)
Definition edgeMap_push (m : gmap string (list string)) (k v : string)
  : gmap string (list string) :=
  <[k := edgeMap_get m k ++ [v]]> m.

(** One iteration of the loop over edges. *)
Definition edgeMap_step (m : gmap string (list string)) (e : BackendEdge)
  : gmap string (list string) :=
  let m := edgeMap_init m (be_from e) in
  let m := edgeMap_init m (be_to e) in
  let m := edgeMap_push m (be_from e) (be_to e) in
  edgeMap_push m (be_to e) (be_from e).

Definition build_edgeMap (es : list BackendEdge) : gmap string (list string) :=
  foldl edgeMap_step ∅ es.

(** [[...new Set(l)]]: insertion order, first occurrence kept. *)
Fixpoint set_spread_from (seen : list string) (l : list string) : list string :=
  match l with
  | [] => []
  | s :: l' =>
      if decide (s ∈ seen) then set_spread_from seen l'
      else s :: set_spread_from (s :: seen) l'
  end.
Definition set_spread (l : list string) : list string := set_spread_from [] l.

Section Adapter.
Context {num : Type} `{JSNumber num}.
(** [Math.cos], [Math.sin], [Math.PI], and the successive results of
    [Math.random()] (two draws per node: x then y). *)
Variables (ncos nsin : num -> num) (nPI : num) (random : nat -> num).

Definition adaptNode (edgeMap : gmap string (list string)) (total : nat)
    (i : nat) (n : BackendNode) : NetworkNode num :=
  let angle :=
    nmul (nmul (ndiv (nofZ (Z.of_nat i)) (nofZ (Z.of_nat total))) nPI) (nofZ 2) in
  {| id := bn_id n;
     label := sor (bn_label n) (bn_id n);
     type := mapNodeType (bn_type n);
     x := nadd (nadd (nofZ 400) (nmul (ncos angle) (nofZ 200)))
               (nmul (random (2 * i)%nat) (nofZ 40));
     y := nadd (nadd (nofZ 300) (nmul (nsin angle) (nofZ 200)))
               (nmul (random (2 * i + 1)%nat) (nofZ 40));
     vx := nofZ 0;
     vy := nofZ 0;
     connections := set_spread (edgeMap_get edgeMap (bn_id n)) |}.

Definition adaptGraphToNodes (graph : BackendGraphData) : list (NetworkNode num) :=
  let edgeMap := build_edgeMap (default [] (bg_edges graph)) in
  let ns := default [] (bg_nodes graph) in
  let total := match length ns with O => 1%nat | n => n end in
  imap (adaptNode edgeMap total) ns.
End Adapter.

(** *** The adapter on the plain object [edgeMap]

    [adaptGraphToNodes] above computes with the own properties of
    [edgeMap] alone; here the lookups go through [Object.prototype], and
    a call on a value that is not an array throws.  [None] stands for the
    thrown [TypeError]. *)

Module EdgeMap.
Import PlainObject.

(** [if (!edgeMap[k]) edgeMap[k] = []]. *)
Definition init (m : gmap string (list string)) (k : string)
  : gmap string (list string) :=
  match read m k with
  | Absent => <[k := []]> m
  | Own _ | Inherited => m
  end.

(** [edgeMap[k].push(v)]: only an array has [push]. *)
Definition push (m : gmap string (list string)) (k v : string)
  : option (gmap string (list string)) :=
  match read m k with
  | Own l => Some (<[k := l ++ [v]]> m)
  | Inherited | Absent => None
  end.

(** One iteration of the loop over edges. *)
Definition step (m : gmap string (list string)) (e : BackendEdge)
  : option (gmap string (list string)) :=
  let m := init m (be_from e) in
  let m := init m (be_to e) in
  m ← push m (be_from e) (be_to e);
  push m (be_to e) (be_from e).

Definition build (es : list BackendEdge) : option (gmap string (list string)) :=
  foldl (fun acc e => acc ≫= fun m => step m e) (Some ∅) es.

(** [[...new Set(edgeMap[id] || [])]]: [new Set] iterates its argument,
    and an inherited member is not iterable. *)
Definition connections_of (m : gmap string (list string)) (id : string)
  : option (list string) :=
  match read m id with
  | Own l => Some (set_spread l)
  | Absent => Some (set_spread [])
  | Inherited => None
  end.

Section Adapter.
Context {num : Type} `{JSNumber num}.
Variables (ncos nsin : num -> num) (nPI : num) (random : nat -> num).

Definition adaptNode (edgeMap : gmap string (list string)) (total : nat)
    (i : nat) (n : BackendNode) : option (NetworkNode num) :=
  let angle :=
    nmul (nmul (ndiv (nofZ (Z.of_nat i)) (nofZ (Z.of_nat total))) nPI) (nofZ 2) in
  cs ← connections_of edgeMap (bn_id n);
  Some {| id := bn_id n;
          label := sor (bn_label n) (bn_id n);
          type := mapNodeType (bn_type n);
          x := nadd (nadd (nofZ 400) (nmul (ncos angle) (nofZ 200)))
                    (nmul (random (2 * i)%nat) (nofZ 40));
          y := nadd (nadd (nofZ 300) (nmul (nsin angle) (nofZ 200)))
                    (nmul (random (2 * i + 1)%nat) (nofZ 40));
          vx := nofZ 0;
          vy := nofZ 0;
          connections := cs |}.

Definition adaptGraphToNodes (graph : BackendGraphData)
  : option (list (NetworkNode num)) :=
  edgeMap ← build (default [] (bg_edges graph));
  let ns := default [] (bg_nodes graph) in
  let total := match length ns with O => 1%nat | n => n end in
  mapM (fun p : nat * BackendNode => adaptNode edgeMap total p.1 p.2)
       (imap pair ns).
End Adapter.
End EdgeMap.

(** ** The pairwise force formulas shared by both engines *)

Section Forces.
Context {num : Type} `{JSNumber num}.

(** [Math.sqrt(dx * dx + dy * dy)]. *)
Definition euclid (dx dy : num) : num :=
  nsqrt (nadd (nmul dx dx) (nmul dy dy)).

(** [(d / dist) * force]. *)
Definition along (d dist force : num) : num :=
  nmul (ndiv d dist) force.
End Forces.

(** ** components/NetworkGraph.jsx *)

Module NetworkGraph.

(** A node of [nodesRef.current]: the backend entry spread into an
    object with a position and a velocity.  An absent [label] is read
    as the empty string (both are falsy). *)
Record GraphNode (num : Type) := {
  id : string; label : string; type : string;
  x : num; y : num; vx : num; vy : num
}.
Arguments id {num}. Arguments label {num}. Arguments type {num}.
Arguments x {num}. Arguments y {num}. Arguments vx {num}. Arguments vy {num}.

Section Engine.
Context {num : Type} `{JSNumber num}.
Local Abbreviation node := (GraphNode num).

Definition set_vx (v : num) (n : node) : node :=
  {| id := id n; label := label n; type := type n;
     x := x n; y := y n; vx := v; vy := vy n |}.
Definition set_vy (v : num) (n : node) : node :=
  {| id := id n; label := label n; type := type n;
     x := x n; y := y n; vx := vx n; vy := v |}.
Definition set_x (v : num) (n : node) : node :=
  {| id := id n; label := label n; type := type n;
     x := v; y := y n; vx := vx n; vy := vy n |}.
Definition set_y (v : num) (n : node) : node :=
  {| id := id n; label := label n; type := type n;
     x := x n; y := v; vx := vx n; vy := vy n |}.

(** [n.vx += f], [n.vx -= f], ... on the object at index [i]. *)
Definition vx_add (f : num) (n : node) := set_vx (nadd (vx n) f) n.
Definition vx_sub (f : num) (n : node) := set_vx (nsub (vx n) f) n.
Definition vy_add (f : num) (n : node) := set_vy (nadd (vy n) f) n.
Definition vy_sub (f : num) (n : node) := set_vy (nsub (vy n) f) n.

(** [const dist = Math.max(Math.sqrt(dx * dx + dy * dy), 1)]. *)
Definition dist_of (dx dy : num) : num := nmax (euclid dx dy) (nofZ 1).

(** [const force = 1500 / (dist * dist)]. *)
Definition repulsion_force (dist : num) : num :=
  ndiv (nofZ 1500) (nmul dist dist).

(** [const force = (dist - 120) * 0.01]. *)
Definition attraction_force (dist : num) : num :=
  nmul (nsub dist (nofZ 120)) (ndec 1 2).

(** Body of the inner repulsion loop, at indices [i < j]. *)
Definition repulse_pair (i j : nat) (nodes : list node) : list node :=
  match nodes !! i, nodes !! j with
  | Some a, Some b =>
      let dx := nsub (x b) (x a) in
      let dy := nsub (y b) (y a) in
      let dist := dist_of dx dy in
      let force := repulsion_force dist in
      let fx := along dx dist force in
      let fy := along dy dist force in
      alter (vy_add fy) j (alter (vx_add fx) j
        (alter (vy_sub fy) i (alter (vx_sub fx) i nodes)))
  | _, _ => nodes
  end.

(** [for (let j = i + 1; j < nodes.length; j++)]. *)
Definition repulse_from (i : nat) (nodes : list node) : list node :=
  foldl (fun ns j => repulse_pair i j ns) nodes
        (seq (S i) (length nodes - S i)).

(** [for (let i = 0; i < nodes.length; i++)]. *)
Definition repulsion (nodes : list node) : list node :=
  foldl (fun ns i => repulse_from i ns) nodes (seq 0 (length nodes)).

(** [nodes.forEach((n) => (nodeMap[n.id] = n))], as far as own
    properties go: the map holds object references, modelled as indices
    into [nodes]; a later node with the same id overwrites an earlier
    one.  What [nodeMap] inherits from [Object.prototype] is added in
    [NodeMap] below. *)
Definition build_nodeMap (nodes : list node) : gmap string nat :=
  foldl (fun m p => <[id p.2 := p.1]> m) ∅ (imap pair nodes).

(** Body of the loop over edges, for ends looked up in own properties
    alone. *)
Definition attract_edge (nodeMap : gmap string nat)
    (nodes : list node) (edge : BackendEdge) : list node :=
  match nodeMap !! be_from edge, nodeMap !! be_to edge with
  | Some ia, Some ib =>
      match nodes !! ia, nodes !! ib with
      | Some a, Some b =>
          let dx := nsub (x b) (x a) in
          let dy := nsub (y b) (y a) in
          let dist := dist_of dx dy in
          let force := attraction_force dist in
          let fx := along dx dist force in
          let fy := along dy dist force in
          alter (vy_sub fy) ib (alter (vx_sub fx) ib
            (alter (vy_add fy) ia (alter (vx_add fx) ia nodes)))
      | _, _ => nodes
      end
  | _, _ => nodes      (* if (!a || !b) continue *)
  end.

Definition attraction (nodes : list node) (edges : list BackendEdge)
  : list node :=
  foldl (attract_edge (build_nodeMap nodes)) nodes edges.

(** Body of the center-gravity loop. *)
Definition gravity_node (n : node) : node :=
  let n := set_vx (nadd (vx n) (nmul (nsub (nofZ 400) (x n)) (ndec 1 3))) n in
  let n := set_vy (nadd (vy n) (nmul (nsub (nofZ 300) (y n)) (ndec 1 3))) n in
  let n := set_vx (nmul (vx n) (ndec 85 2)) n in
  let n := set_vy (nmul (vy n) (ndec 85 2)) n in
  let n := set_x (nadd (x n) (vx n)) n in
  set_y (nadd (y n) (vy n)) n.

Definition gravity (nodes : list node) : list node := gravity_node <$> nodes.

(** One call of [simulate] on [nodesRef.current], [edgesRef.current]. *)
Definition simulate (nodes : list node) (edges : list BackendEdge)
  : list node :=
  match nodes with
  | [] => nodes                      (* if (!nodes.length) return *)
  | _ => gravity (attraction (repulsion nodes) edges)
  end.

(** [(n.label || n.id || "").slice(0, 24)], the text given to
    [fillText]. *)
Definition draw_label (n : node) : string :=
  String.substring 0 24 (sor (sor (label n) (id n)) "").
End Engine.
End NetworkGraph.

(** *** The engine of NetworkGraph.jsx on the plain object [nodeMap]

    [NetworkGraph.simulate] above resolves edge ends in the own
    properties of [nodeMap] alone.  Here an end that is not an own
    property is looked up along the prototype chain, and the assignment
    [nodeMap["__proto__"] = n] replaces the prototype by the node. *)

Module NodeMap.
Import PlainObject NetworkGraph.

(** The own properties of [nodeMap], as indices into [nodes], and the
    node that the setter of ["__proto__"] made its prototype, if any. *)
Record nodeMap := {
  nm_own : gmap string nat;
  nm_proto : option nat
}.

(** [nodeMap[k] = n], for the node at index [i]. *)
Definition set (m : nodeMap) (k : string) (i : nat) : nodeMap :=
  if decide (k = "__proto__")
  then {| nm_own := nm_own m; nm_proto := Some i |}
  else {| nm_own := <[k := i]> (nm_own m); nm_proto := nm_proto m |}.

(** What an edge end resolves to: a node, an inherited member of
    [Object.prototype] (an object without coordinates), or a truthy
    string or number read from the node that became the prototype. *)
Inductive Resolved := RNode (i : nat) | RAlien | RPrimitive.

Section Engine.
Context {num : Type} `{JSNumber num} `{JSNaN num}.
Local Abbreviation node := (GraphNode num).

Definition build (nodes : list node) : nodeMap :=
  foldl (fun m p => set m (id p.2) p.1)
        {| nm_own := ∅; nm_proto := None |} (imap pair nodes).

(** The truthiness of the own property [k] of a node object, which
    carries the seven properties of [GraphNode]; [None] when the object
    has no such property. *)
Definition node_field (n : node) (k : string) : option bool :=
  if decide (k = "id") then Some (bool_decide (id n <> ""))
  else if decide (k = "label") then Some (bool_decide (label n <> ""))
  else if decide (k = "type") then Some (bool_decide (type n <> ""))
  else if decide (k = "x") then Some (ntruthy (x n))
  else if decide (k = "y") then Some (ntruthy (y n))
  else if decide (k = "vx") then Some (ntruthy (vx n))
  else if decide (k = "vy") then Some (ntruthy (vy n))
  else None.

(** [nodeMap[k]] when it is truthy ([None] when it is falsy, which is
    what [!a] tests). *)
Definition resolve (m : nodeMap) (nodes : list node) (k : string)
  : option Resolved :=
  match nm_own m !! k with
  | Some i => Some (RNode i)
  | None =>
      if decide (k = "__proto__") then
        Some (match nm_proto m with Some i => RNode i | None => RAlien end)
      else
        match nm_proto m ≫= (nodes !!.) with
        | Some p =>
            match node_field p k with
            | Some true => Some RPrimitive
            | Some false => None
            | None => if inherited k then Some RAlien else None
            end
        | None => if inherited k then Some RAlien else None
        end
  end.

(** [a.x], [a.y] as operands of a subtraction. *)
Definition coord (field : node -> num) (nodes : list node) (a : Resolved) : num :=
  match a with
  | RNode i => default nnan (field <$> nodes !! i)
  | RAlien | RPrimitive => nnan
  end.

(** [a.vx += f] and the like: an update of the node, a write on an
    inherited member that no node sees, or, the module being strict
    code, a [TypeError] for a write on a string or number. *)
Definition write (upd : node -> node) (a : Resolved) (nodes : list node)
  : Outcome (list node) :=
  match a with
  | RNode i => Normal (alter upd i nodes)
  | RAlien => Normal nodes
  | RPrimitive => Threw nodes
  end.

(** Body of the loop over edges. *)
Definition attract_edge (m : nodeMap) (nodes : list node) (edge : BackendEdge)
  : Outcome (list node) :=
  match resolve m nodes (be_from edge), resolve m nodes (be_to edge) with
  | Some a, Some b =>
      let dx := nsub (coord x nodes b) (coord x nodes a) in
      let dy := nsub (coord y nodes b) (coord y nodes a) in
      let dist := dist_of dx dy in
      let force := attraction_force dist in
      let fx := along dx dist force in
      let fy := along dy dist force in
      outcome_bind (write (vx_add fx) a nodes) (fun nodes =>
      outcome_bind (write (vy_add fy) a nodes) (fun nodes =>
      outcome_bind (write (vx_sub fx) b nodes) (fun nodes =>
      write (vy_sub fy) b nodes)))
  | _, _ => Normal nodes               (* if (!a || !b) continue *)
  end.

Definition attraction (nodes : list node) (edges : list BackendEdge)
  : Outcome (list node) :=
  let nodeMap := build nodes in
  foldl (fun acc edge =>
           outcome_bind acc (fun nodes => attract_edge nodeMap nodes edge))
        (Normal nodes) edges.

(** One call of [simulate]; after a throw the gravity loop is not
    reached and [nodesRef.current] keeps what was written so far. *)
Definition simulate (nodes : list node) (edges : list BackendEdge)
  : Outcome (list node) :=
  match nodes with
  | [] => Normal nodes
  | _ =>
      match attraction (repulsion nodes) edges with
      | Normal nodes => Normal (gravity nodes)
      | Threw nodes => Threw nodes
      end
  end.

(** Whether the edge loop of [draw] strokes a line for the edge. *)
Definition edge_stroked (nodes : list node) (edge : BackendEdge) : bool :=
  bool_decide (is_Some (resolve (build nodes) nodes (be_from edge)) /\
               is_Some (resolve (build nodes) nodes (be_to edge))).
End Engine.
End NodeMap.

(** ** pages/NetworkPage.tsx *)

Module NetworkPage.
Section Engine.
Context {num : Type} `{JSNumber num}.
Local Abbreviation node := (NetworkNode num).

Definition set_vx (v : num) (n : node) : node :=
  {| id := id n; label := label n; type := type n; x := x n; y := y n;
     vx := v; vy := vy n; connections := connections n |}.
Definition set_vy (v : num) (n : node) : node :=
  {| id := id n; label := label n; type := type n; x := x n; y := y n;
     vx := vx n; vy := v; connections := connections n |}.
Definition set_x (v : num) (n : node) : node :=
  {| id := id n; label := label n; type := type n; x := v; y := y n;
     vx := vx n; vy := vy n; connections := connections n |}.
Definition set_y (v : num) (n : node) : node :=
  {| id := id n; label := label n; type := type n; x := x n; y := v;
     vx := vx n; vy := vy n; connections := connections n |}.

Definition vx_add (f : num) (n : node) := set_vx (nadd (vx n) f) n.
Definition vx_sub (f : num) (n : node) := set_vx (nsub (vx n) f) n.
Definition vy_add (f : num) (n : node) := set_vy (nadd (vy n) f) n.
Definition vy_sub (f : num) (n : node) := set_vy (nsub (vy n) f) n.

(** [const dist = Math.sqrt(dx * dx + dy * dy) || 1]. *)
Definition dist_of (dx dy : num) : num := nor (euclid dx dy) (nofZ 1).

(** [const force = 800 / (dist * dist)]. *)
Definition repulsion_force (dist : num) : num :=
  ndiv (nofZ 800) (nmul dist dist).

(** [const force = (dist - 120) * 0.005]. *)
Definition attraction_force (dist : num) : num :=
  nmul (nsub dist (nofZ 120)) (ndec 5 3).

(** Body of the inner repulsion loop, at indices [i < j]. *)
Definition repulse_pair (i j : nat) (next : list node) : list node :=
  match next !! i, next !! j with
  | Some a, Some b =>
      let dx := nsub (x b) (x a) in
      let dy := nsub (y b) (y a) in
      let dist := dist_of dx dy in
      let force := repulsion_force dist in
      alter (vy_add (along dy dist force)) j
        (alter (vx_add (along dx dist force)) j
          (alter (vy_sub (along dy dist force)) i
            (alter (vx_sub (along dx dist force)) i next)))
  | _, _ => next
  end.

Definition repulse_from (i : nat) (next : list node) : list node :=
  foldl (fun ns j => repulse_pair i j ns) next
        (seq (S i) (length next - S i)).

Definition repulsion (next : list node) : list node :=
  foldl (fun ns i => repulse_from i ns) next (seq 0 (length next)).

(** [next.find((n) => n.id === connId)]: the first node with that id,
    as its index (the object is shared with [next]). *)
Definition find_id (next : list node) (connId : string) : option nat :=
  fst <$> list_find (fun n => id n = connId) next.

(** Body of [node.connections.forEach], for the node at index [k]. *)
Definition attract_conn (k : nat) (next : list node) (connId : string)
  : list node :=
  match find_id next connId with
  | Some t =>
      match next !! k, next !! t with
      | Some node, Some target =>
          let dx := nsub (x target) (x node) in
          let dy := nsub (y target) (y node) in
          let dist := dist_of dx dy in
          let force := attraction_force dist in
          alter (vy_add (along dy dist force)) k
            (alter (vx_add (along dx dist force)) k next)
      | _, _ => next
      end
  | None => next                      (* if (target) *)
  end.

(** Body of the outer [next.forEach] of the attraction step. *)
Definition attract_node (next : list node) (k : nat) : list node :=
  match next !! k with
  | Some node => foldl (attract_conn k) next (connections node)
  | None => next
  end.

Definition attraction (next : list node) : list node :=
  foldl attract_node next (seq 0 (length next)).

(** [Math.max(lo, Math.min(hi, v))]. *)
Definition clamp (lo hi : Z) (v : num) : num :=
  nmax (nofZ lo) (nmin (nofZ hi) v).

(** Body of the center-gravity loop, with the viewport clamp. *)
Definition gravity_node (n : node) : node :=
  let n := set_vx (nadd (vx n) (nmul (nsub (nofZ 400) (x n)) (ndec 1 3))) n in
  let n := set_vy (nadd (vy n) (nmul (nsub (nofZ 300) (y n)) (ndec 1 3))) n in
  let n := set_vx (nmul (vx n) (ndec 9 1)) n in
  let n := set_vy (nmul (vy n) (ndec 9 1)) n in
  let n := set_x (nadd (x n) (vx n)) n in
  let n := set_y (nadd (y n) (vy n)) n in
  let n := set_x (clamp 40 760 (x n)) n in
  set_y (clamp 40 560 (y n)) n.

Definition gravity (next : list node) : list node := gravity_node <$> next.

(** The state updater passed to [setNodes] by [simulate]:
    [prev.map((n) => ({ ...n }))] copies every node, so the result is
    a function of [prev]. *)
Definition simulate (prev : list node) : list node :=
  gravity (attraction (repulsion prev)).

(** The label text given to [fillText] by [draw]. *)
Definition draw_label (n : node) : string :=
  if decide (20 < String.length (label n))%nat
  then String.substring 0 18 (label n) +:+ "..."
  else label n.

(** [handleCanvasClick], at pointer [(px, py)] in canvas space:
    the argument of [setSelectedNode]. *)
Definition handleCanvasClick (px py : num) (nodes : list node)
  : option node :=
  List.find (fun n =>
               let dx := nsub (x n) px in
               let dy := nsub (y n) py in
               nltb (euclid dx dy) (nofZ 16)) nodes.
End Engine.
End NetworkPage.

(** ** Notions used by the statements *)

(** [c] is the far end of [e] seen from [k]. *)
Definition links (e : BackendEdge) (k c : string) : Prop :=
  (be_from e = k /\ be_to e = c) \/ (be_to e = k /\ be_from e = c).

(** The distance from the pointer [(px, py)] to a node as the click
    handler computes it: [Math.sqrt(dx * dx + dy * dy)]. *)
Definition pointer_distance {num : Type} `{JSNumber num} (px py : num)
    (n : NetworkNode num) : num :=
  euclid (nsub (x n) px) (nsub (y n) py).

(** Sum of a numeric field over the nodes, added up from the left. *)
Definition total {num : Type} `{JSNumber num} {A : Type} (proj : A -> num)
    (l : list A) : num :=
  foldl (fun acc n => nadd acc (proj n)) (nofZ 0) l.



(** All four coordinates of a node are finite. *)
Definition jsx_finite (n : NetworkGraph.GraphNode XReal.xreal) : Prop :=
  XReal.finite (NetworkGraph.x n) /\ XReal.finite (NetworkGraph.y n) /\
  XReal.finite (NetworkGraph.vx n) /\ XReal.finite (NetworkGraph.vy n).

Definition tsx_finite (n : NetworkNode XReal.xreal) : Prop :=
  XReal.finite (x n) /\ XReal.finite (y n) /\
  XReal.finite (vx n) /\ XReal.finite (vy n).

(** All four coordinates of a node are finite doubles. *)
Definition jsx_finite64 (n : NetworkGraph.GraphNode PrimFloat.float) : bool :=
  F64.finite (NetworkGraph.x n) && F64.finite (NetworkGraph.y n) &&
  F64.finite (NetworkGraph.vx n) && F64.finite (NetworkGraph.vy n).

Definition tsx_finite64 (n : NetworkNode PrimFloat.float) : bool :=
  F64.finite (x n) && F64.finite (y n) && F64.finite (vx n) && F64.finite (vy n).

(** ** Concrete inputs *)

(** The payload of the dangling-edge scenario: one node [b] and an edge
    from an id [x] that no node carries. *)
Definition dangling_payload : BackendGraphData :=
  {| bg_nodes := Some [ {| bn_id := "b"; bn_label := "scam.biz"; bn_type := "url" |} ];
     bg_edges := Some [ {| be_from := "x"; be_to := "b"; be_label := "mentioned_in" |} ];
     bg_total_reports := None |}.

(** A payload with two entries that share the id [a]. *)
Definition duplicate_payload : BackendGraphData :=
  {| bg_nodes := Some [ {| bn_id := "a"; bn_label := "555-0100"; bn_type := "phone_number" |};
                        {| bn_id := "a"; bn_label := "scam.biz"; bn_type := "url" |} ];
     bg_edges := Some [];
     bg_total_reports := None |}.

(** A node of [NetworkGraph.jsx] whose label has 30 characters. *)
Definition long_label_node : NetworkGraph.GraphNode R :=
  {| NetworkGraph.id := "n1";
     NetworkGraph.label := "abcdefghijklmnopqrstuvwxyz0123";
     NetworkGraph.type := "url";
     NetworkGraph.x := 400%R; NetworkGraph.y := 300%R;
     NetworkGraph.vx := 0%R; NetworkGraph.vy := 0%R |}.

(** A node of [NetworkPage.tsx] with the same 30-character label. *)
Definition long_label_tsx : NetworkNode R :=
  {| id := "n1"; label := "abcdefghijklmnopqrstuvwxyz0123"; type := url;
     x := 400%R; y := 300%R; vx := 0%R; vy := 0%R; connections := [] |}.

(** Two nodes of [NetworkPage.tsx] half a unit apart, at rest, as IEEE
    doubles. *)
Definition close_pair : list (NetworkNode PrimFloat.float) :=
  [ {| id := "a"; label := "555-0100"; type := phone;
       x := nofZ 400; y := nofZ 300; vx := nofZ 0; vy := nofZ 0;
       connections := [] |};
    {| id := "b"; label := "scam.biz"; type := url;
       x := ndec 4005 1; y := nofZ 300; vx := nofZ 0; vy := nofZ 0;
       connections := [] |} ].

(** Two nodes at rest whose coordinates are finite doubles, 2^1023 and
    -2^1023: their difference overflows. *)
Module FarPair.
Import PrimFloat.
Definition huge : float := 0x1p+1023%float.

Definition jsx : list (NetworkGraph.GraphNode float) :=
  [ {| NetworkGraph.id := "a"; NetworkGraph.label := "555-0100";
       NetworkGraph.type := "phone_number";
       NetworkGraph.x := huge; NetworkGraph.y := zero;
       NetworkGraph.vx := zero; NetworkGraph.vy := zero |};
    {| NetworkGraph.id := "b"; NetworkGraph.label := "scam.biz";
       NetworkGraph.type := "url";
       NetworkGraph.x := opp huge; NetworkGraph.y := zero;
       NetworkGraph.vx := zero; NetworkGraph.vy := zero |} ].

Definition tsx : list (NetworkNode float) :=
  [ {| id := "a"; label := "555-0100"; type := phone;
       x := huge; y := zero; vx := zero; vy := zero; connections := [] |};
    {| id := "b"; label := "scam.biz"; type := url;
       x := opp huge; y := zero; vx := zero; vy := zero; connections := [] |} ].
End FarPair.

(** A node at [(116 - 2^-46, 100 + 45 * 2^-26)]; both coordinates are
    doubles, and the literals below denote them exactly. *)
Definition boundary_node {num : Type} `{JSNumber num} : NetworkNode num :=
  {| id := "a"; label := "555-0100"; type := phone;
     x := nsub (nofZ 116) (ndiv (nofZ 1) (nofZ 70368744177664));
     y := nadd (nofZ 100) (ndiv (nofZ 45) (nofZ 67108864));
     vx := nofZ 0; vy := nofZ 0; connections := [] |}.

(** Two nodes of [NetworkGraph.jsx] 10 units apart whose velocities
    along x are the doubles 2^53 and -(2^53 + 20). *)
Definition rounding_pair : list (NetworkGraph.GraphNode PrimFloat.float) :=
  [ {| NetworkGraph.id := "a"; NetworkGraph.label := "555-0100";
       NetworkGraph.type := "phone_number";
       NetworkGraph.x := nofZ 100; NetworkGraph.y := nofZ 300;
       NetworkGraph.vx := nofZ 9007199254740992; NetworkGraph.vy := nofZ 0 |};
    {| NetworkGraph.id := "b"; NetworkGraph.label := "scam.biz";
       NetworkGraph.type := "url";
       NetworkGraph.x := nofZ 110; NetworkGraph.y := nofZ 300;
       NetworkGraph.vx := nofZ (-9007199254741012); NetworkGraph.vy := nofZ 0 |} ].

(** Two finite nodes for each engine, in the extended reals. *)
Definition finite_pair_jsx : list (NetworkGraph.GraphNode XReal.xreal) :=
  [ {| NetworkGraph.id := "a"; NetworkGraph.label := "555-0100";
       NetworkGraph.type := "phone_number";
       NetworkGraph.x := XReal.Fin 400; NetworkGraph.y := XReal.Fin 300;
       NetworkGraph.vx := XReal.Fin 0; NetworkGraph.vy := XReal.Fin 0 |};
    {| NetworkGraph.id := "b"; NetworkGraph.label := "scam.biz";
       NetworkGraph.type := "url";
       NetworkGraph.x := XReal.Fin 400; NetworkGraph.y := XReal.Fin 300;
       NetworkGraph.vx := XReal.Fin 0; NetworkGraph.vy := XReal.Fin 0 |} ].

Definition finite_pair_tsx : list (NetworkNode XReal.xreal) :=
  [ {| id := "a"; label := "555-0100"; type := phone;
       x := XReal.Fin 400; y := XReal.Fin 300;
       vx := XReal.Fin 0; vy := XReal.Fin 0; connections := ["b"] |};
    {| id := "b"; label := "scam.biz"; type := url;
       x := XReal.Fin 400; y := XReal.Fin 300;
       vx := XReal.Fin 0; vy := XReal.Fin 0; connections := ["a"] |} ].

(** Two nodes of [NetworkPage.tsx] with distinct ids; the first lists
    its own id among its connections. *)
Definition self_linked_pair : list (NetworkNode R) :=
  [ {| id := "a"; label := "555-0100"; type := phone;
       x := 380%R; y := 300%R; vx := 0%R; vy := 0%R;
       connections := ["a"; "b"] |};
    {| id := "b"; label := "scam.biz"; type := url;
       x := 420%R; y := 310%R; vx := 0%R; vy := 0%R;
       connections := ["a"] |} ].



(** ** More of components/NetworkGraph.jsx *)

Module NetworkGraphJsx.
Import NetworkGraph.

Section View.
Context {num : Type} `{JSNumber num}.
Variables (ncos nsin : num -> num) (nPI : num) (random : nat -> num).

(** The callback of [initGraph]'s [map], at index [i] of a node array of
    length [len]: the backend entry spread, then seeded on the circle. *)
Definition initNode (len : nat) (i : nat) (n : BackendNode) : GraphNode num :=
  let angle :=
    nmul (nmul (ndiv (nofZ (Z.of_nat i)) (nofZ (Z.of_nat len))) nPI) (nofZ 2) in
  {| id := bn_id n; label := bn_label n; type := bn_type n;
     x := nadd (nadd (nofZ 400) (nmul (ncos angle) (nofZ 200)))
               (nmul (random (2 * i)%nat) (nofZ 40));
     y := nadd (nadd (nofZ 300) (nmul (nsin angle) (nofZ 200)))
               (nmul (random (2 * i + 1)%nat) (nofZ 40));
     vx := nofZ 0; vy := nofZ 0 |}.

(** [initGraph]: the new [nodesRef.current] and [edgesRef.current]. *)
Definition initGraph (graphData : BackendGraphData)
  : list (GraphNode num) * list BackendEdge :=
  let ns := default [] (bg_nodes graphData) in
  (imap (initNode (length ns)) ns, default [] (bg_edges graphData)).

(** [n.reportCount > k]; an absent [reportCount] compares false. *)
Definition reportCount_gt (reportCount : option num) (k : Z) : bool :=
  match reportCount with
  | Some c => nltb (nofZ k) c
  | None => false
  end.

(** [const r = n.reportCount > 10 ? 16 : n.reportCount > 3 ? 12 : 8]. *)
Definition node_radius (reportCount : option num) : Z :=
  if reportCount_gt reportCount 10 then 16
  else if reportCount_gt reportCount 3 then 12 else 8.

(** [(n.reportCount || 0) > 5], the condition of the glow. *)
Definition has_glow (reportCount : option num) : bool :=
  nltb (nofZ 5)
       (match reportCount with
        | Some c => nor c (nofZ 0)
        | None => nofZ 0
        end).
End View.
End NetworkGraphJsx.

(** ** More of pages/NetworkPage.tsx *)

Module NetworkPageTsx.
Import NetworkPage.

Section View.
Context {num : Type} `{JSNumber num}.
Variables (ncos nsin : num -> num) (nPI : num) (random : nat -> num).

(** [const radius = node.type === "report" ? 8 : 12]. *)
Definition node_radius (n : NetworkNode num) : Z :=
  if decide (type n = report) then 8 else 12.

(** [currentNodes.find((n) => n.id === connId)]. *)
Definition find_node (currentNodes : list (NetworkNode num)) (connId : string)
  : option (NetworkNode num) :=
  snd <$> list_find (fun n => id n = connId) currentNodes.

(** The end points handed to [moveTo] and [lineTo] for one connection
    of [node], when the id resolves. *)
Definition conn_segment (currentNodes : list (NetworkNode num))
    (node : NetworkNode num) (connId : string)
  : option ((num * num) * (num * num)) :=
  match find_node currentNodes connId with
  | Some target => Some ((x node, y node), (x target, y target))
  | None => None                       (* if (target) *)
  end.

(** The lines stroked by the edge loop of [draw], in order. *)
Definition draw_edges (currentNodes : list (NetworkNode num))
  : list ((num * num) * (num * num)) :=
  currentNodes ≫= fun node =>
    omap (conn_segment currentNodes node) (connections node).

(** The component state touched when a network is fetched. *)
Record PageState := {
  st_nodes : list (NetworkNode num);
  st_totalReports : Z
}.

(** The [then] callback of the fetch effect: [setNodes] and
    [setTotalReports] run only for a payload with at least one node. *)
Definition onNetworkFetched (graph : BackendGraphData) (st : PageState)
  : PageState :=
  match bg_nodes graph with
  | Some (_ :: _) =>
      {| st_nodes := adaptGraphToNodes ncos nsin nPI random graph;
         st_totalReports := default 0%Z (bg_total_reports graph) |}
  | _ => st
  end.
End View.
End NetworkPageTsx.

(** ** Notions used by the further statements *)

(** Everything of a node except its velocity. *)
Definition jsx_frame {num : Type} (n : NetworkGraph.GraphNode num)
  : string * string * string * num * num :=
  (NetworkGraph.id n, NetworkGraph.label n, NetworkGraph.type n,
   NetworkGraph.x n, NetworkGraph.y n).

Definition tsx_frame {num : Type} (n : NetworkNode num)
  : string * string * NodeType * list string * num * num :=
  (id n, label n, type n, connections n, x n, y n).

(** The far ends of the edges that touch [k], in payload order; an edge
    from [k] to [k] counts twice. *)
Definition far_ends (k : string) (es : list BackendEdge) : list string :=
  es ≫= fun e =>
    (if decide (be_from e = k) then [be_to e] else [])
    ++ (if decide (be_to e = k) then [be_from e] else []).

(** The two-node payload of the spec's scenario. *)
Definition scenario_payload : BackendGraphData :=
  {| bg_nodes := Some [ {| bn_id := "a"; bn_label := "555-0100"; bn_type := "phone" |};
                        {| bn_id := "b"; bn_label := "scam.biz"; bn_type := "url" |} ];
     bg_edges := Some [ {| be_from := "a"; be_to := "b"; be_label := "mentioned_in" |} ];
     bg_total_reports := Some 5%Z |}.

(** ** The other adapters of api/adapters.ts *)

Module Adapters.

(** ["scam" | "caution" | "safe"]. *)
Inductive Verdict := scam | caution | safe.
(** ["screenshot" | "voice" | "text"]. *)
Inductive ScanType := screenshot | voice | text.
(** The [type] of a suspicious item, ["phone" | "url" | "company"]. *)
Inductive ItemType := item_phone | item_url | item_company.
(** ["high" | "medium" | "low"]. *)
Inductive Severity := high | medium | low.

(** The backend shapes of [api/client.ts].  The adapters read every
    field of a verdict through [||] or a truthiness test, so an absent
    field is the same as its falsy value (the empty string, 0, no flags). *)
Record BackendVerdict (num : Type) := {
  bv_level : string;
  bv_confidence : num;
  bv_explanation : string;
  bv_scam_type : string;
  bv_red_flags : list string
}.
Arguments bv_level {num}. Arguments bv_confidence {num}.
Arguments bv_explanation {num}. Arguments bv_scam_type {num}.
Arguments bv_red_flags {num}.

Record BackendEntity (num : Type) := {
  ent_text : string; ent_label : string; ent_score : num
}.
Arguments ent_text {num}. Arguments ent_label {num}. Arguments ent_score {num}.

(** [visual] and [voice] are [Record<string, any>]; the adapters read
    string fields of them. *)
Record BackendScanResult (num : Type) := {
  bs_scan_id : string;
  bs_status : string;
  bs_verdict : option (BackendVerdict num);
  bs_visual : option (gmap string string);
  bs_voice : option (gmap string string);
  bs_entities : option (list (BackendEntity num));
  bs_type : option string
}.
Arguments bs_scan_id {num}. Arguments bs_status {num}.
Arguments bs_verdict {num}. Arguments bs_visual {num}.
Arguments bs_voice {num}. Arguments bs_entities {num}. Arguments bs_type {num}.

Record BackendThreat (num : Type) := {
  th_entity : string; th_entityType : string;
  th_reports : num; th_firstSeen : string
}.
Arguments th_entity {num}. Arguments th_entityType {num}.
Arguments th_reports {num}. Arguments th_firstSeen {num}.

(** The frontend shapes of [data/mockData]. *)
Record ScanResult (num : Type) := {
  sr_id : string;
  sr_type : ScanType;
  sr_input : string;
  sr_verdict : Verdict;
  sr_confidence : num;
  sr_date : string;
  sr_findings : list string;
  sr_suspiciousItems : list (string * ItemType);   (* { label, type } *)
  sr_connectedReports : num
}.
Arguments sr_id {num}. Arguments sr_type {num}. Arguments sr_input {num}.
Arguments sr_verdict {num}. Arguments sr_confidence {num}.
Arguments sr_date {num}. Arguments sr_findings {num}.
Arguments sr_suspiciousItems {num}. Arguments sr_connectedReports {num}.

Record ThreatFeedItem := {
  feed_id : string; feed_type : PlainObject.Value string; feed_source : string;
  feed_time : string; feed_severity : Severity; feed_description : string
}.

Definition levelToVerdict : gmap string Verdict :=
  {[ "RED" := scam; "YELLOW" := caution; "GREEN" := safe; "pending" := caution ]}.

Definition mapScanType (type : option string) : ScanType :=
  if decide (type = Some "image") then screenshot
  else if decide (type = Some "voice") then voice
  else text.

Definition entityLabelToItemType (label : string) : ItemType :=
  if decide (label = "phone_number") then item_phone
  else if decide (label = "url" \/ label = "email_address") then item_url
  else item_company.

(** [["phone_number", "url", "company_name", "email_address"].includes(e.label)]. *)
Definition suspicious_label (label : string) : Prop :=
  label ∈ ["phone_number"; "url"; "company_name"; "email_address"].

(** [map[type] || "Threat"]: for a [type] that names a member of
    [Object.prototype] the result is that member, not a string. *)
Definition mapEntityTypeToThreatType (type : string) : PlainObject.Value string :=
  let map : gmap string string :=
    {[ "PhoneNumber" := "Phone Scam";
       "URL" := "Phishing Site";
       "CompanyImpersonated" := "Brand Impersonation";
       "EmailAddress" := "Email Scam";
       "DollarAmount" := "Financial Fraud" ]} in
  match PlainObject.read map type with
  | PlainObject.Own s => PlainObject.Val (sor s "Threat")
  | PlainObject.Inherited => PlainObject.Member type
  | PlainObject.Absent => PlainObject.Val "Threat"
  end.

Section Adapt.
Context {num : Type} `{JSNumber num}.
(** [Math.round], the number-to-string conversion of a template
    literal, and the value of
    [new Date().toISOString().split("T")[0]] at the call. *)
Variables (nround : num -> num) (nshow : num -> string) (today : string).

(** The value of an optional string field when it is truthy. *)
Definition truthy_field (field : option string) : option string :=
  match field with
  | Some s => if decide (s = "") then None else Some s
  | None => None
  end.

Definition getInputSummary (backend : BackendScanResult num) : string :=
  match truthy_field (bs_visual backend ≫= (.!! "text_content")) with
  | Some text_content => String.substring 0 80 text_content +:+ "..."
  | None =>
      match truthy_field (bs_voice backend ≫= (.!! "transcript")) with
      | Some transcript => String.substring 0 80 transcript +:+ "..."
      | None => "Scan " +:+ bs_scan_id backend
      end
  end.

Definition adaptScanResult (backend : BackendScanResult num) : ScanResult num :=
  let verdict := bs_verdict backend in
  let entities := default [] (bs_entities backend) in
  {| sr_id := bs_scan_id backend;
     sr_type := mapScanType (bs_type backend);
     sr_input := getInputSummary backend;
     sr_verdict :=
       default caution
         (levelToVerdict !! sor (default "" (bv_level <$> verdict)) "pending");
     sr_confidence :=
       nround (nmul (nor (default (nofZ 0) (bv_confidence <$> verdict)) (nofZ 0))
                    (nofZ 100));
     sr_date := today;
     sr_findings :=
       (match verdict with
        | Some v => if decide (bv_explanation v = "") then [] else [bv_explanation v]
        | None => []
        end)
       ++ default [] (bv_red_flags <$> verdict);
     sr_suspiciousItems :=
       (fun e => (ent_text e, entityLabelToItemType (ent_label e)))
         <$> filter (fun e => suspicious_label (ent_label e)) entities;
     sr_connectedReports := nofZ 0 |}.

(** [t.reports > 10 ? "high" : t.reports > 3 ? "medium" : "low"]. *)
Definition severity_of (reports : num) : Severity :=
  if nltb (nofZ 10) reports then high
  else if nltb (nofZ 3) reports then medium else low.

Definition adaptThreatsToFeed (threats : list (BackendThreat num))
  : list ThreatFeedItem :=
  imap (fun i t =>
          {| feed_id := "t-" +:+ pretty i;
             feed_type := mapEntityTypeToThreatType (th_entityType t);
             feed_source := "GuardianEye Network";
             feed_time := sor (th_firstSeen t) "Recently";
             feed_severity := severity_of (th_reports t);
             feed_description :=
               th_entity t +:+ " — reported " +:+ nshow (th_reports t)
               +:+ " times across the scam network" |})
       threats.
End Adapt.

(** The node type that [mapNodeType] uses for the same kind of entity. *)
Definition node_type_of_item (t : ItemType) : NodeType :=
  match t with
  | item_phone => phone
  | item_url => url
  | item_company => company
  end.

(** [Math.round] on the reals: the nearest integer, halves upwards. *)
Definition Rround (r : R) : R := IZR (Zfloor (r + / 2)).
End Adapters.

(** A scan result of the backend with a verdict of confidence 0.97. *)
Definition sample_scan : Adapters.BackendScanResult R :=
  {| Adapters.bs_scan_id := "scan-1";
     Adapters.bs_status := "complete";
     Adapters.bs_verdict :=
       Some {| Adapters.bv_level := "RED";
               Adapters.bv_confidence := (97 / 100)%R;
               Adapters.bv_explanation := "Impersonates the IRS.";
               Adapters.bv_scam_type := "phishing";
               Adapters.bv_red_flags := ["urgency"] |};
     Adapters.bs_visual := None;
     Adapters.bs_voice := None;
     Adapters.bs_entities := None;
     Adapters.bs_type := Some "image" |}.

(** ** Notions about plain objects *)

(** No own property of the map is an inherited name. *)
Definition own_plain (m : gmap string (list string)) : Prop :=
  forall k, PlainObject.inherited k = true -> m !! k = None.

(** Neither end of the edge is an inherited name. *)
Definition plain_edge (e : BackendEdge) : bool :=
  negb (PlainObject.inherited (be_from e)) &&
  negb (PlainObject.inherited (be_to e)).

(** No id of the payload's nodes is an inherited name. *)
Definition plain_node (n : BackendNode) : bool :=
  negb (PlainObject.inherited (bn_id n)).

(** The edge list that [NetworkGraph.jsx] resolves in own properties
    alone: no node carries the id ["__proto__"], and every edge end is
    the id of a node or is not an inherited name. *)
Definition jsx_plain {num : Type} (nodes : list (NetworkGraph.GraphNode num))
    (edges : list BackendEdge) : Prop :=
  ("__proto__" ∉ (NetworkGraph.id <$> nodes)) /\
  Forall (fun e =>
            ((be_from e ∈ (NetworkGraph.id <$> nodes)) \/
             PlainObject.inherited (be_from e) = false) /\
            ((be_to e ∈ (NetworkGraph.id <$> nodes)) \/
             PlainObject.inherited (be_to e) = false))
         edges.

(** A payload without nodes whose one edge starts at the id
    ["constructor"], and a payload without edges whose one node has that
    id. *)
Definition inherited_edge_payload : BackendGraphData :=
  {| bg_nodes := Some [];
     bg_edges := Some [ {| be_from := "constructor"; be_to := "b";
                           be_label := "mentioned_in" |} ];
     bg_total_reports := None |}.

Definition inherited_node_payload : BackendGraphData :=
  {| bg_nodes := Some [ {| bn_id := "constructor"; bn_label := "Acme";
                           bn_type := "company_name" |} ];
     bg_edges := None;
     bg_total_reports := None |}.

(** * Properties *)

(** ** Lists *)


Lemma foldl_invariant {A B C : Type} (obs : list A -> C)
    (step : list A -> B -> list A) (bs : list B) (l : list A) :
  (forall l b, obs (step l b) = obs l) ->
  obs (foldl step l bs) = obs l.
Proof.
  intros Hs. revert l. induction bs as [|b bs IH]; intros l; simpl; [done|].
  by rewrite IH, Hs.
Qed.

Lemma foldl_preserves {A B : Type} (P : list A -> Prop)
    (step : list A -> B -> list A) (bs : list B) (l : list A) :
  (forall l b, P l -> P (step l b)) -> P l -> P (foldl step l bs).
Proof.
  intros Hs. revert l. induction bs as [|b bs IH]; intros l Hl; simpl; auto.
Qed.

Lemma fmap_alter_unobserved {A B : Type} (obs : A -> B) (f : A -> A)
    (i : nat) (l : list A) :
  (forall a, obs (f a) = obs a) -> obs <$> alter f i l = obs <$> l.
Proof.
  intros Hf. rewrite (list_fmap_alter obs f (fun b => b)).
  - by apply list_alter_id.
  - apply Forall_forall. auto.
Qed.

Lemma mapM_guard {A B : Type} (f : A -> option B) (p : A -> bool) (g : A -> B)
    (l : list A) :
  (forall a, f a = if p a then Some (g a) else None) ->
  mapM f l = if forallb p l then Some (g <$> l) else None.
Proof.
  intros Hf. induction l as [|a l IH]; [done|].
  cbn. rewrite Hf, IH. destruct (p a); [|done]. by destruct (forallb p l).
Qed.

Lemma forallb_imap_snd {A : Type} (q : A -> bool) (f : nat -> A -> nat * A)
    (l : list A) :
  (forall i a, (f i a).2 = a) ->
  forallb (fun p => q p.2) (imap f l) = forallb q l.
Proof.
  revert f. induction l as [|a l IH]; intros f Hf; [done|].
  simpl. rewrite Hf, IH; [done|]. intros i b. apply Hf.
Qed.


(** ** Real arithmetic *)

Lemma Rltb_spec (a b : R) : Rltb a b = true <-> (a < b)%R.
Proof. unfold Rltb. destruct (Rlt_dec a b); split; auto; discriminate. Qed.

Lemma div_le_of (a b c : R) : (0 < b)%R -> (a <= c * b)%R -> (a / b <= c)%R.
Proof.
  intros Hb H. apply (Rmult_le_reg_r b); [done|].
  unfold Rdiv. rewrite Rmult_assoc, Rinv_l by lra. lra.
Qed.

Lemma div_gt_of (a b c : R) : (0 < b)%R -> (c * b < a)%R -> (c < a / b)%R.
Proof.
  intros Hb H. apply (Rmult_lt_reg_r b); [done|].
  unfold Rdiv. rewrite Rmult_assoc, Rinv_l by lra. lra.
Qed.

Lemma sumsq_nonneg (dx dy : R) : (0 <= dx * dx + dy * dy)%R.
Proof. nra. Qed.

(** ** The adapter's connection map *)

Lemma edgeMap_get_init (m : gmap string (list string)) (k' k : string) :
  edgeMap_get (edgeMap_init m k') k = edgeMap_get m k.
Proof.
  unfold edgeMap_init, edgeMap_get.
  destruct (m !! k') as [l|] eqn:Hk'; [done|].
  destruct (decide (k = k')) as [->|Hne].
  - by rewrite lookup_insert_eq, Hk'.
  - by rewrite lookup_insert_ne.
Qed.

Lemma edgeMap_get_push (m : gmap string (list string)) (k' v k : string) :
  edgeMap_get (edgeMap_push m k' v) k =
  if decide (k = k') then edgeMap_get m k ++ [v] else edgeMap_get m k.
Proof.
  unfold edgeMap_push. unfold edgeMap_get at 1.
  destruct (decide (k = k')) as [->|Hne].
  - by rewrite lookup_insert_eq.
  - by rewrite lookup_insert_ne.
Qed.

Lemma links_sym (e : BackendEdge) (k c : string) : links e k c <-> links e c k.
Proof. unfold links. tauto. Qed.

Lemma edgeMap_get_step (m : gmap string (list string)) (e : BackendEdge)
    (k c : string) :
  c ∈ edgeMap_get (edgeMap_step m e) k <-> c ∈ edgeMap_get m k \/ links e k c.
Proof.
  unfold edgeMap_step, links.
  rewrite !edgeMap_get_push, !edgeMap_get_init.
  repeat case_decide; subst; rewrite ?elem_of_app, ?list_elem_of_singleton;
    intuition congruence.
Qed.

Lemma edgeMap_get_foldl (es : list BackendEdge) (m : gmap string (list string))
    (k c : string) :
  c ∈ edgeMap_get (foldl edgeMap_step m es) k <->
  c ∈ edgeMap_get m k \/ exists e, e ∈ es /\ links e k c.
Proof.
  revert m. induction es as [|e es IH]; intros m; simpl.
  - split; [auto|]. intros [?|(e & He & _)]; [done|]. by apply elem_of_nil in He.
  - rewrite IH, edgeMap_get_step. split.
    + intros [[?|?]|(e' & ? & ?)]; eauto using list_elem_of_here, list_elem_of_further.
    + intros [?|(e' & [->|?]%elem_of_cons & ?)]; eauto.
Qed.

Lemma build_edgeMap_spec (es : list BackendEdge) (k c : string) :
  c ∈ edgeMap_get (build_edgeMap es) k <-> exists e, e ∈ es /\ links e k c.
Proof.
  unfold build_edgeMap. rewrite edgeMap_get_foldl.
  unfold edgeMap_get at 1. rewrite lookup_empty. simpl.
  split; [intros [H|H]; [by apply elem_of_nil in H|done] | auto].
Qed.

Lemma set_spread_from_elem (l seen : list string) (s : string) :
  s ∈ set_spread_from seen l <-> s ∈ l /\ s ∉ seen.
Proof.
  revert seen. induction l as [|a l IH]; intros seen; simpl.
  - split; [intros H%elem_of_nil; done | intros [H%elem_of_nil _]; done].
  - case_decide as Ha.
    + rewrite IH, elem_of_cons. split; [tauto|].
      intros [[->|?] ?]; [done|tauto].
    + rewrite !elem_of_cons, IH, elem_of_cons. split.
      * intros [->|[? ?]]; [tauto|]. split; [tauto|]. tauto.
      * intros [[->|?] ?]; [tauto|].
        destruct (decide (s = a)); tauto.
Qed.

Lemma set_spread_from_NoDup (l seen : list string) :
  NoDup (set_spread_from seen l).
Proof.
  revert seen. induction l as [|a l IH]; intros seen; simpl.
  - constructor.
  - case_decide; [apply IH|]. constructor; [|apply IH].
    rewrite set_spread_from_elem, elem_of_cons. tauto.
Qed.

Lemma set_spread_elem (l : list string) (s : string) :
  s ∈ set_spread l <-> s ∈ l.
Proof.
  unfold set_spread. rewrite set_spread_from_elem.
  split; [tauto|]. intros ?; split; [done|]. apply not_elem_of_nil.
Qed.

(** ** GraphDataAdapter *)

Section AdapterFacts.
Context {num : Type} `{JSNumber num}.
Variables (ncos nsin : num -> num) (nPI : num) (random : nat -> num).
Local Abbreviation adapt := (adaptGraphToNodes ncos nsin nPI random).

Lemma adapt_elem (graph : BackendGraphData) (n : NetworkNode num) :
  n ∈ adapt graph ->
  exists bn, bn ∈ default [] (bg_nodes graph) /\
    id n = bn_id bn /\
    connections n =
      set_spread (edgeMap_get (build_edgeMap (default [] (bg_edges graph))) (bn_id bn)).
Proof.
  unfold adaptGraphToNodes. intros (i & bn & -> & Hi)%elem_of_lookup_imap.
  exists bn. split; [by eapply list_elem_of_lookup_2|done].
Qed.

Lemma adapt_connections (graph : BackendGraphData) (n : NetworkNode num)
    (c : string) :
  n ∈ adapt graph ->
  (c ∈ connections n <->
   exists e, e ∈ default [] (bg_edges graph) /\ links e (id n) c).
Proof.
  intros (bn & _ & -> & ->)%adapt_elem.
  by rewrite set_spread_elem, build_edgeMap_spec.
Qed.

(** C1 (as amended): the ids in a node's [connections] are exactly the
    far ends of the payload edges that touch the node's id; whether the
    far end names a node of the payload is not looked at. *)
Theorem C1_connections_are_edge_ends (graph : BackendGraphData) :
  Forall (fun n : NetworkNode num =>
            forall c, c ∈ connections n <->
              exists e, e ∈ default [] (bg_edges graph) /\ links e (id n) c)
         (adapt graph).
Proof.
  apply Forall_forall. intros n Hn c. by apply adapt_connections.
Qed.

(** C4: in an adapted graph adjacency is symmetric, and no
    [connections] list repeats an id. *)
Theorem C4_adjacency_symmetric_nodup (graph : BackendGraphData) :
  Forall (fun a : NetworkNode num =>
            NoDup (connections a) /\
            Forall (fun b : NetworkNode num =>
                      id b ∈ connections a <-> id a ∈ connections b)
                   (adapt graph))
         (adapt graph).
Proof.
  apply Forall_forall. intros a Ha. split.
  - apply adapt_elem in Ha as (bn & _ & _ & ->).
    apply set_spread_from_NoDup.
  - apply Forall_forall. intros b Hb.
    rewrite (adapt_connections graph a (id b) Ha).
    rewrite (adapt_connections graph b (id a) Hb).
    split; intros (e & He & Hl); exists e; (split; [done|]);
      by apply links_sym.
Qed.

(** The output has one node per payload entry, in payload order, each
    with the id, the label (the id when the label is empty) and the
    mapped type of its own entry. *)
Lemma adapt_entries (graph : BackendGraphData) :
  (fun n : NetworkNode num => (id n, label n, type n)) <$> adapt graph =
  (fun bn => (bn_id bn, sor (bn_label bn) (bn_id bn), mapNodeType (bn_type bn)))
    <$> default [] (bg_nodes graph).
Proof.
  unfold adaptGraphToNodes. rewrite fmap_imap.
  generalize (build_edgeMap (default [] (bg_edges graph))).
  generalize (match length (default [] (bg_nodes graph)) with
              | O => 1%nat | S n => S n end).
  intros total m. rewrite <- imap_const. apply imap_ext. done.
Qed.
End AdapterFacts.

(** ** The adapter on the plain object *)

Section EdgeMapFacts.
Import PlainObject.

Lemma read_plain {A : Type} (m : gmap string A) (k : string) :
  inherited k = false ->
  read m k = match m !! k with Some a => Own a | None => Absent end.
Proof. intros Hk. unfold read. by rewrite Hk. Qed.

Lemma read_inherited (m : gmap string (list string)) (k : string) :
  own_plain m -> inherited k = true -> read m k = Inherited.
Proof. intros Hm Hk. unfold read. by rewrite (Hm k Hk), Hk. Qed.

Lemma init_plain (m : gmap string (list string)) (k : string) :
  inherited k = false -> EdgeMap.init m k = edgeMap_init m k.
Proof.
  intros Hk. unfold EdgeMap.init, edgeMap_init. rewrite read_plain by done.
  by destruct (m !! k).
Qed.

Lemma init_inherited (m : gmap string (list string)) (k : string) :
  own_plain m -> inherited k = true -> EdgeMap.init m k = m.
Proof. intros Hm Hk. unfold EdgeMap.init. by rewrite read_inherited. Qed.

Lemma init_own_plain (m : gmap string (list string)) (k : string) :
  own_plain m -> own_plain (EdgeMap.init m k).
Proof.
  intros Hm. destruct (inherited k) eqn:Hk.
  - by rewrite init_inherited.
  - rewrite init_plain by done. unfold edgeMap_init.
    destruct (m !! k); [done|]. intros k' Hk'.
    rewrite lookup_insert_ne by congruence. by apply Hm.
Qed.

Lemma init_lookup (m : gmap string (list string)) (k : string) :
  inherited k = false -> is_Some (EdgeMap.init m k !! k).
Proof.
  intros Hk. rewrite init_plain by done. unfold edgeMap_init.
  destruct (m !! k) eqn:Hm; [by rewrite Hm|]. by rewrite lookup_insert_eq.
Qed.

Lemma push_plain (m : gmap string (list string)) (k v : string) :
  inherited k = false -> is_Some (m !! k) ->
  EdgeMap.push m k v = Some (edgeMap_push m k v).
Proof.
  intros Hk [l Hl]. unfold EdgeMap.push, edgeMap_push, edgeMap_get.
  rewrite read_plain by done. by rewrite Hl.
Qed.

Lemma push_inherited (m : gmap string (list string)) (k v : string) :
  own_plain m -> inherited k = true -> EdgeMap.push m k v = None.
Proof. intros Hm Hk. unfold EdgeMap.push. by rewrite read_inherited. Qed.

Lemma push_own_plain (m : gmap string (list string)) (k v : string) :
  inherited k = false -> own_plain m -> own_plain (edgeMap_push m k v).
Proof.
  intros Hk Hm k' Hk'. unfold edgeMap_push.
  rewrite lookup_insert_ne by congruence. by apply Hm.
Qed.

Lemma step_plain (m : gmap string (list string)) (e : BackendEdge) :
  own_plain m -> plain_edge e = true ->
  EdgeMap.step m e = Some (edgeMap_step m e) /\ own_plain (edgeMap_step m e).
Proof.
  intros Hm [Hf%negb_true_iff Ht%negb_true_iff]%andb_true_iff.
  unfold EdgeMap.step, edgeMap_step. rewrite !init_plain by done.
  assert (Hfs : is_Some (edgeMap_init (edgeMap_init m (be_from e)) (be_to e)
                         !! be_from e)).
  { rewrite <- (init_plain _ (be_to e)) by done.
    unfold EdgeMap.init. rewrite read_plain by done.
    pose proof (init_lookup m (be_from e) Hf) as Hs.
    rewrite init_plain in Hs by done.
    destruct (_ !! be_to e); [done|].
    destruct (decide (be_from e = be_to e)) as [->|Hne].
    - by rewrite lookup_insert_eq.
    - by rewrite lookup_insert_ne. }
  rewrite push_plain by done. simpl.
  rewrite push_plain; [|done|].
  - split; [done|]. apply push_own_plain; [done|]. apply push_own_plain; [done|].
    rewrite <- !init_plain by done. by do 2 apply init_own_plain.
  - unfold edgeMap_push.
    destruct (decide (be_to e = be_from e)) as [->|Hne].
    + by rewrite lookup_insert_eq.
    + rewrite lookup_insert_ne by done.
      rewrite <- (init_plain _ (be_to e)) by done. by apply init_lookup.
Qed.

Lemma step_inherited (m : gmap string (list string)) (e : BackendEdge) :
  own_plain m -> plain_edge e = false -> EdgeMap.step m e = None.
Proof.
  intros Hm He. unfold EdgeMap.step.
  assert (Hm2 : own_plain (EdgeMap.init (EdgeMap.init m (be_from e)) (be_to e)))
    by (by do 2 apply init_own_plain).
  destruct (inherited (be_from e)) eqn:Hf.
  - by rewrite push_inherited.
  - unfold plain_edge in He. rewrite Hf in He. simpl in He.
    apply negb_false_iff in He.
    destruct (EdgeMap.push _ (be_from e) (be_to e)) as [m'|] eqn:Hp; [|done].
    simpl. apply push_inherited; [|done].
    unfold EdgeMap.push in Hp. rewrite read_plain in Hp by done.
    destruct (_ !! be_from e) as [l|]; [|done]. injection Hp as <-.
    intros k' Hk'. rewrite lookup_insert_ne by congruence. by apply Hm2.
Qed.

Lemma build_from (es : list BackendEdge) (m : gmap string (list string)) :
  own_plain m ->
  foldl (fun acc e => acc ≫= fun m => EdgeMap.step m e) (Some m) es
  = if forallb plain_edge es then Some (foldl edgeMap_step m es) else None.
Proof.
  revert m. induction es as [|e es IH]; intros m Hm; simpl; [done|].
  destruct (plain_edge e) eqn:He; simpl.
  - destruct (step_plain m e Hm He) as [-> Hm']. by apply IH.
  - rewrite step_inherited by done. clear. by induction es.
Qed.

Lemma build_spec (es : list BackendEdge) :
  EdgeMap.build es
  = if forallb plain_edge es then Some (build_edgeMap es) else None.
Proof. apply build_from. intros k _. apply lookup_empty. Qed.

Lemma build_edgeMap_own_plain (es : list BackendEdge) :
  forallb plain_edge es = true -> own_plain (build_edgeMap es).
Proof.
  unfold build_edgeMap. assert (Hm : own_plain ∅) by (intros k _; apply lookup_empty).
  revert Hm. generalize (∅ : gmap string (list string)).
  induction es as [|e es IH]; intros m Hm Hes; simpl; [done|].
  simpl in Hes. apply andb_true_iff in Hes as [He Hes].
  apply IH; [|done]. by apply step_plain.
Qed.
End EdgeMapFacts.

Section EdgeMapAdapter.
Import PlainObject.
Context {num : Type} `{JSNumber num}.
Variables (ncos nsin : num -> num) (nPI : num) (random : nat -> num).
Local Abbreviation adapt := (adaptGraphToNodes ncos nsin nPI random).
Local Abbreviation adapt_js := (EdgeMap.adaptGraphToNodes ncos nsin nPI random).

Lemma connections_of_plain (m : gmap string (list string)) (k : string) :
  own_plain m ->
  EdgeMap.connections_of m k
  = if inherited k then None else Some (set_spread (edgeMap_get m k)).
Proof.
  intros Hm. unfold EdgeMap.connections_of, edgeMap_get.
  destruct (inherited k) eqn:Hk.
  - by rewrite read_inherited.
  - rewrite read_plain by done. by destruct (m !! k).
Qed.

(** The adapter returns exactly when no edge end and no node id is an
    inherited name, and then it returns what the computation on own
    properties gives. *)
Lemma adapt_js_spec (graph : BackendGraphData) :
  adapt_js graph
  = if forallb plain_edge (default [] (bg_edges graph)) &&
       forallb plain_node (default [] (bg_nodes graph))
    then Some (adapt graph) else None.
Proof.
  unfold EdgeMap.adaptGraphToNodes, adaptGraphToNodes.
  rewrite build_spec.
  destruct (forallb plain_edge _) eqn:Hes; [|done]. simpl.
  pose proof (build_edgeMap_own_plain _ Hes) as Hm.
  set (m := build_edgeMap _) in *. set (ns := default [] (bg_nodes graph)).
  set (total := match length ns with O => 1%nat | S n => S n end).
  rewrite (mapM_guard _ (fun p => plain_node p.2)
             (fun p => adaptNode ncos nsin nPI random m total p.1 p.2)).
  - rewrite forallb_imap_snd by done.
    destruct (forallb plain_node ns); [|done].
    f_equal. rewrite fmap_imap. done.
  - intros [i n]. unfold EdgeMap.adaptNode, adaptNode, plain_node. simpl.
    rewrite connections_of_plain by done. by destruct (inherited (bn_id n)).
Qed.

Lemma adapt_js_returns (graph : BackendGraphData) (nodes : list (NetworkNode num)) :
  adapt_js graph = Some nodes -> nodes = adapt graph.
Proof.
  rewrite adapt_js_spec. destruct (_ && _); congruence.
Qed.

(** For payloads free of inherited names: without [nodes], or with an
    empty [nodes], the adapter returns the empty graph; without [edges]
    it returns nodes that all have empty [connections]. *)
Lemma adapt_js_missing_fields
    (es : option (list BackendEdge)) (ns : option (list BackendNode))
    (tr : option Z) :
  forallb plain_edge (default [] es) = true ->
  forallb plain_node (default [] ns) = true ->
  adapt_js {| bg_nodes := None; bg_edges := es; bg_total_reports := tr |}
    = Some [] /\
  adapt_js {| bg_nodes := Some []; bg_edges := es; bg_total_reports := tr |}
    = Some [] /\
  exists nodes,
    adapt_js {| bg_nodes := ns; bg_edges := None; bg_total_reports := tr |}
      = Some nodes /\
    length nodes = length (default [] ns) /\
    Forall (fun n : NetworkNode num => connections n = []) nodes.
Proof.
  intros Hes Hns. rewrite !adapt_js_spec. simpl. rewrite Hes, Hns.
  split; [done|]. split; [done|].
  eexists. split; [done|]. split.
  - unfold adaptGraphToNodes. by rewrite length_imap.
  - apply Forall_forall. intros n (bn & _ & _ & ->)%adapt_elem. done.
Qed.

(** C2 (as amended): the adapter does not merge entries; whenever it
    returns, the output has one node per payload entry, in payload
    order, each carrying the id, the label (the id when the label is
    empty) and the mapped type of its own entry. *)
Theorem C2_one_node_per_entry (graph : BackendGraphData)
    (nodes : list (NetworkNode num)) :
  adapt_js graph = Some nodes ->
  (fun n : NetworkNode num => (id n, label n, type n)) <$> nodes =
  (fun bn => (bn_id bn, sor (bn_label bn) (bn_id bn), mapNodeType (bn_type bn)))
    <$> default [] (bg_nodes graph).
Proof.
  intros ->%adapt_js_returns. apply adapt_entries.
Qed.

(** C9 fails in the code: with [nodes] empty and an edge that starts at
    ["constructor"], [edgeMap["constructor"]] is the inherited member,
    the guard leaves it in place and [.push] throws; with [edges] absent
    and a node whose id is ["constructor"], [new Set] is handed the
    inherited member and throws.  In both cases the adapter returns no
    graph. *)
Theorem C9_inherited_name_throws :
  adapt_js inherited_edge_payload = None /\
  adapt_js inherited_node_payload = None.
Proof. by rewrite !adapt_js_spec. Qed.
End EdgeMapAdapter.


(** C1, as stated, fails: the edge from the unknown id [x] is not
    dropped, and [b.connections] is [["x"]] although the adapted graph
    has no node [x]. *)
Lemma C1_dangling_edge_kept :
  let out := adaptGraphToNodes cos sin PI (fun _ => 0%R) dangling_payload in
  id <$> out = ["b"] /\ connections <$> out = [["x"]].
Proof. split; reflexivity. Qed.

(** C2, as stated, fails: the adapter returns, and both entries with id
    [a] come out, the second with its own label and type. *)
Lemma C2_duplicate_id_kept :
  (fun nodes : list (NetworkNode R) =>
     (fun n => (id n, label n, type n)) <$> nodes)
    <$> EdgeMap.adaptGraphToNodes cos sin PI (fun _ => 0%R) duplicate_payload =
  Some [ ("a", "555-0100", phone); ("a", "scam.biz", url) ].
Proof. reflexivity. Qed.

Lemma C2_one_node_per_entry_witness :
  exists nodes : list (NetworkNode R),
    EdgeMap.adaptGraphToNodes cos sin PI (fun _ => 0%R) duplicate_payload
      = Some nodes /\
    (fun n : NetworkNode R => (id n, label n, type n)) <$> nodes =
    (fun bn => (bn_id bn, sor (bn_label bn) (bn_id bn),
                mapNodeType (bn_type bn)))
      <$> default [] (bg_nodes duplicate_payload).
Proof.
  eexists.
  assert (Hr : EdgeMap.adaptGraphToNodes cos sin PI (fun _ => 0%R)
                 duplicate_payload
               = Some (adaptGraphToNodes cos sin PI (fun _ => 0%R)
                         duplicate_payload)) by reflexivity.
  split; [exact Hr|].
  exact (C2_one_node_per_entry cos sin PI (fun _ => 0%R) duplicate_payload _ Hr).
Defined.

(** ** Renderer: label text *)

Lemma substring0_length (n : nat) (s : string) :
  String.length (String.substring 0 n s) = Nat.min n (String.length s).
Proof.
  revert s. induction n as [|n IH]; intros [|c s]; simpl; auto.
Qed.

Lemma append_length (s t : string) :
  String.length (s +:+ t) = (String.length s + String.length t)%nat.
Proof. induction s as [|c s IH]; simpl; auto. Qed.

Lemma substring0_prefix (n : nat) (s : string) :
  String.prefix (String.substring 0 n s) s = true.
Proof.
  revert s. induction n as [|n IH]; intros [|c s]; simpl; auto.
  destruct (Ascii.ascii_dec c c); [apply IH|done].
Qed.

Lemma substring0_all (n : nat) (s : string) :
  (String.length s <= n)%nat -> String.substring 0 n s = s.
Proof.
  revert s. induction n as [|n IH]; intros [|c s]; simpl; auto.
  - lia.
  - intros Hl. f_equal. apply IH. lia.
Qed.

(** C6 (as amended): [NetworkPage.tsx] draws a label of more than 20
    characters as its first 18 characters followed by three dots (21
    characters in all) and any shorter label unchanged;
    [NetworkGraph.jsx] draws the first 24 characters of the label (of the
    id when the label is empty) and never appends a suffix. *)
Theorem C6_label_text :
  (forall (num : Type) (n : NetworkNode num),
     ((String.length (label n) <= 20)%nat -> NetworkPage.draw_label n = label n) /\
     ((20 < String.length (label n))%nat ->
        NetworkPage.draw_label n = String.substring 0 18 (label n) +:+ "..." /\
        String.length (String.substring 0 18 (label n)) = 18%nat /\
        String.length (NetworkPage.draw_label n) = 21%nat)) /\
  (forall (num : Type) (n : NetworkGraph.GraphNode num),
     let text := sor (NetworkGraph.label n) (NetworkGraph.id n) in
     String.prefix (NetworkGraph.draw_label n) text = true /\
     String.length (NetworkGraph.draw_label n) = Nat.min 24 (String.length text) /\
     ((String.length text <= 24)%nat -> NetworkGraph.draw_label n = text)).
Proof.
  split.
  - intros num n. unfold NetworkPage.draw_label. split; intros Hl.
    + case_decide; [lia|done].
    + case_decide; [|lia]. split; [done|].
      split; [rewrite substring0_length; lia|].
      rewrite append_length, substring0_length, Nat.min_l by lia. done.

  - intros num n text. unfold NetworkGraph.draw_label.
    assert (Ht : sor text "" = text).
    { unfold sor at 1. by case_decide. }
    fold text. rewrite Ht. split; [apply substring0_prefix|].
    split; [apply substring0_length|apply substring0_all].
Qed.

Lemma C6_label_text_witness :
  (20 < String.length (label long_label_tsx))%nat /\
  NetworkPage.draw_label long_label_tsx = "abcdefghijklmnopqr...".
Proof.
  assert (Hlen : (20 < String.length (label long_label_tsx))%nat)
    by (simpl; lia).
  split; [exact Hlen|].
  exact (proj1 (proj2 (proj1 C6_label_text R long_label_tsx) Hlen)).
Defined.

(** C6, as stated, fails in [NetworkGraph.jsx]: a label of length 30 is
    drawn as its first 24 characters, with no ellipsis. *)
Lemma C6_jsx_label_no_ellipsis :
  String.length (NetworkGraph.label long_label_node) = 30%nat /\
  NetworkGraph.draw_label long_label_node = "abcdefghijklmnopqrstuvwx" /\
  NetworkGraph.draw_label long_label_node <>
    String.substring 0 18 (NetworkGraph.label long_label_node) +:+ "...".
Proof. split; [reflexivity|]. split; [reflexivity|]. discriminate. Qed.

(** ** InteractionLayer: hit-testing *)

Section HitTest.
Context {num : Type} `{JSNumber num}.

(** C7 (as amended): the click handler selects the first node of the
    list for which the distance it computes tests below 16; for every
    node before it, and for every node when it selects none, the test
    fails. *)
Theorem C7_hit_test_first_within_radius (px py : num)
    (nodes : list (NetworkNode num)) :
  match NetworkPage.handleCanvasClick px py nodes with
  | Some n =>
      exists before after,
        nodes = before ++ n :: after /\
        nltb (pointer_distance px py n) (nofZ 16) = true /\
        Forall (fun m => nltb (pointer_distance px py m) (nofZ 16) = false)
               before
  | None =>
      Forall (fun m => nltb (pointer_distance px py m) (nofZ 16) = false) nodes
  end.
Proof.
  unfold NetworkPage.handleCanvasClick.
  induction nodes as [|m nodes IH]; simpl; [constructor|].
  destruct (nltb (euclid (nsub (x m) px) (nsub (y m) py)) (nofZ 16)) eqn:Hm.
  - exists [], nodes. split; [done|]. split; [done|constructor].
  - destruct (List.find _ nodes) as [n|].
    + destruct IH as (before & after & -> & Hn & Hb).
      exists (m :: before), after. split; [done|]. split; [done|].
      by constructor.
    + by constructor.
Qed.
End HitTest.

(** C7, as stated, fails on doubles: [boundary_node] is closer than 16
    to the pointer [(100, 100)], yet the distance the handler computes
    is 16 and it selects nothing. *)
Lemma C7_near_boundary_node_missed :
  (pointer_distance (num := R) 100 100 boundary_node < 16)%R /\
  pointer_distance (num := PrimFloat.float) (nofZ 100) (nofZ 100) boundary_node
  = nofZ 16 /\
  NetworkPage.handleCanvasClick (num := PrimFloat.float) (nofZ 100) (nofZ 100)
    [boundary_node] = None.
Proof.
  split; [|split; vm_compute; reflexivity].
  unfold pointer_distance, euclid, boundary_node. cbn [x y nsub nadd nmul ndiv
    nsqrt nofZ R_JSNumber].
  rewrite <- (sqrt_square 16) at 1 by lra.
  apply sqrt_lt_1_alt. split; [nra|lra].
Qed.

(** ** What a tick leaves alone *)

Section JsxUntouched.
Import NetworkGraph.
Context {num : Type} `{JSNumber num}.
Local Abbreviation node := (GraphNode num).

Lemma jsx_repulse_pair_frame (i j : nat) (l : list node) :
  jsx_frame <$> repulse_pair i j l = jsx_frame <$> l.
Proof.
  unfold repulse_pair.
  destruct (l !! i) as [a|]; [|done]. destruct (l !! j) as [b|]; [|done].
  by rewrite !fmap_alter_unobserved.
Qed.

Lemma jsx_repulsion_frame (l : list node) :
  jsx_frame <$> repulsion l = jsx_frame <$> l.
Proof.
  unfold repulsion, repulse_from.
  apply (foldl_invariant (fmap jsx_frame)). intros l' i.
  apply (foldl_invariant (fmap jsx_frame)). intros l'' j.
  apply jsx_repulse_pair_frame.
Qed.

Lemma jsx_attract_edge_frame (m : gmap string nat) (l : list node)
    (e : BackendEdge) :
  jsx_frame <$> attract_edge m l e = jsx_frame <$> l.
Proof.
  unfold attract_edge.
  destruct (m !! be_from e) as [ia|]; [|done].
  destruct (m !! be_to e) as [ib|]; [|done].
  destruct (l !! ia) as [a|]; [|done]. destruct (l !! ib) as [b|]; [|done].
  by rewrite !fmap_alter_unobserved.
Qed.

Lemma jsx_attraction_frame (l : list node) (es : list BackendEdge) :
  jsx_frame <$> attraction l es = jsx_frame <$> l.
Proof.
  unfold attraction. apply (foldl_invariant (fmap jsx_frame)).
  intros l' e. apply jsx_attract_edge_frame.
Qed.

Lemma jsx_forces_frame (l : list node) (es : list BackendEdge) :
  jsx_frame <$> attraction (repulsion l) es = jsx_frame <$> l.
Proof. by rewrite jsx_attraction_frame, jsx_repulsion_frame. Qed.

(** X1: a tick of [NetworkGraph.jsx] keeps the number and order of the
    nodes and the id, label and type of each; whatever the number type. *)
Theorem X1_jsx_tick_keeps_identity (nodes : list node) (edges : list BackendEdge) :
  (fun n : node => (id n, label n, type n)) <$> simulate nodes edges
  = (fun n : node => (id n, label n, type n)) <$> nodes.
Proof.
  unfold simulate. destruct nodes as [|n0 nodes]; [done|].
  unfold gravity. rewrite <- list_fmap_compose.
  pose proof (jsx_forces_frame (n0 :: nodes) edges) as Hf.
  apply (f_equal (fmap (fun p : string * string * string * num * num =>
                          (p.1.1.1.1, p.1.1.1.2, p.1.1.2)))) in Hf.
  rewrite <- !list_fmap_compose in Hf. exact Hf.
Qed.

End JsxUntouched.

Section TsxUntouched.
Import NetworkPage.
Context {num : Type} `{JSNumber num}.
Local Abbreviation node := (NetworkNode num).

Lemma tsx_repulse_pair_frame (i j : nat) (l : list node) :
  tsx_frame <$> repulse_pair i j l = tsx_frame <$> l.
Proof.
  unfold repulse_pair.
  destruct (l !! i) as [a|]; [|done]. destruct (l !! j) as [b|]; [|done].
  by rewrite !fmap_alter_unobserved.
Qed.

Lemma tsx_repulsion_frame (l : list node) :
  tsx_frame <$> repulsion l = tsx_frame <$> l.
Proof.
  unfold repulsion, repulse_from.
  apply (foldl_invariant (fmap tsx_frame)). intros l' i.
  apply (foldl_invariant (fmap tsx_frame)). intros l'' j.
  apply tsx_repulse_pair_frame.
Qed.

Lemma tsx_attract_conn_frame (k : nat) (l : list node) (c : string) :
  tsx_frame <$> attract_conn k l c = tsx_frame <$> l.
Proof.
  unfold attract_conn.
  destruct (find_id l c) as [t|]; [|done].
  destruct (l !! k) as [a|]; [|done]. destruct (l !! t) as [b|]; [|done].
  by rewrite !fmap_alter_unobserved.
Qed.

Lemma tsx_attraction_frame (l : list node) :
  tsx_frame <$> attraction l = tsx_frame <$> l.
Proof.
  unfold attraction. apply (foldl_invariant (fmap tsx_frame)).
  intros l' k. unfold attract_node. destruct (l' !! k) as [n|]; [|done].
  apply (foldl_invariant (fmap tsx_frame)). intros l'' c.
  apply tsx_attract_conn_frame.
Qed.

Lemma tsx_forces_frame (l : list node) :
  tsx_frame <$> attraction (repulsion l) = tsx_frame <$> l.
Proof. by rewrite tsx_attraction_frame, tsx_repulsion_frame. Qed.

(** X3: a tick of [NetworkPage.tsx] keeps the number and order of the
    nodes and the id, label, type and connections of each; whatever the
    number type. *)
Theorem X3_tsx_tick_keeps_identity (prev : list node) :
  (fun n : node => (id n, label n, type n, connections n)) <$> simulate prev
  = (fun n : node => (id n, label n, type n, connections n)) <$> prev.
Proof.
  unfold simulate, gravity. rewrite <- list_fmap_compose.
  pose proof (tsx_forces_frame prev) as Hf.
  apply (f_equal (fmap (fun p : string * string * NodeType * list string * num * num =>
                          p.1.1))) in Hf.
  rewrite <- !list_fmap_compose in Hf. exact Hf.
Qed.

(** X4: in [NetworkPage.tsx] the new position of every node is its old
    position plus its new velocity, clamped to the viewport: the clamp
    comes after the integration and leaves the velocity as it is. *)
Theorem X4_tsx_position_clamped_after_integration (prev : list node) :
  Forall2 (fun n' n : node =>
             x n' = clamp 40 760 (nadd (x n) (vx n')) /\
             y n' = clamp 40 560 (nadd (y n) (vy n')))
          (simulate prev) prev.
Proof.
  pose proof (tsx_forces_frame prev) as Hf.
  unfold simulate, gravity. apply Forall2_fmap_l.
  revert Hf. generalize (attraction (repulsion prev)).
  intros l Hf. apply Forall2_same_length_lookup. split.
  - apply (f_equal length) in Hf. by rewrite !length_fmap in Hf.
  - intros i a b Ha Hb.
    apply (f_equal (fun l => l !! i)) in Hf.
    rewrite !list_lookup_fmap, Ha, Hb in Hf. simpl in Hf.
    injection Hf as _ _ _ _ Hx Hy. cbn. by rewrite Hx, Hy.
Qed.
End TsxUntouched.

(** ** Resolving edge ends in NetworkGraph.jsx *)

Section JsxNodeMap.
Import PlainObject NetworkGraph.
Context {num : Type} `{JSNumber num} `{JSNaN num}.
Local Abbreviation node := (GraphNode num).
Local Abbreviation ids := (fmap (M := list) (@id num)).

Lemma build_nodeMap_snoc (l : list node) (n : node) :
  build_nodeMap (l ++ [n]) = <[id n := length l]> (build_nodeMap l).
Proof.
  unfold build_nodeMap. rewrite imap_app, foldl_app. simpl.
  by rewrite Nat.add_0_r.
Qed.

Lemma build_nodeMap_None (l : list node) (k : string) :
  build_nodeMap l !! k = None <-> k ∉ ids l.
Proof.
  induction l as [|n l IH] using rev_ind.
  - unfold build_nodeMap. simpl. rewrite lookup_empty.
    split; [intros _; apply not_elem_of_nil|done].
  - rewrite build_nodeMap_snoc, fmap_app, not_elem_of_app. simpl.
    rewrite list_elem_of_singleton.
    destruct (decide (id n = k)) as [<-|Hne].
    + rewrite lookup_insert_eq. split; [done|]. intros [_ Hk]. done.
    + rewrite lookup_insert_ne by done. rewrite IH.
      split; [intros ?; split; [done|congruence] | tauto].
Qed.

Lemma build_nodeMap_Some (l : list node) (k : string) (i : nat) :
  build_nodeMap l !! k = Some i <->
  ids l !! i = Some k /\ forall j, (i < j)%nat -> ids l !! j <> Some k.
Proof.
  revert i. induction l as [|n l IH] using rev_ind; intros i.
  - unfold build_nodeMap. simpl. rewrite lookup_empty.
    split; [done|]. by intros [? _].
  - rewrite build_nodeMap_snoc, fmap_app. simpl.
    assert (Hlen : length (ids l) = length l) by apply length_fmap.
    destruct (decide (id n = k)) as [<-|Hne].
    + rewrite lookup_insert_eq. split.
      * intros [= <-]. split.
        -- rewrite lookup_app_r by lia. by rewrite Hlen, Nat.sub_diag.
        -- intros j Hj. rewrite lookup_ge_None_2; [done|].
           rewrite length_app. simpl. lia.
      * intros [Hi Hlast]. f_equal.
        apply lookup_lt_Some in Hi as Hlt.
        rewrite length_app in Hlt. simpl in Hlt.
        destruct (decide (i = length l)) as [->|Hi']; [done|].
        exfalso. apply (Hlast (length l)); [lia|].
        rewrite lookup_app_r by lia. by rewrite Hlen, Nat.sub_diag.
    + rewrite lookup_insert_ne by done. rewrite IH. split.
      * intros [Hi Hlast]. apply lookup_lt_Some in Hi as Hlt. split.
        -- by rewrite lookup_app_l.
        -- intros j Hj.
           destruct (decide (j < length l)%nat) as [Hjl|Hjl].
           ++ rewrite lookup_app_l by lia. by apply Hlast.
           ++ rewrite lookup_app_r by lia. rewrite Hlen.
              destruct (j - length l)%nat as [|m] eqn:Hm; simpl; [congruence|done].
      * intros [Hi Hlast].
        assert (Hlt : (i < length l)%nat).
        { apply lookup_lt_Some in Hi as Hlt.
          rewrite length_app in Hlt. simpl in Hlt.
          destruct (decide (i = length l)) as [->|Hi']; [|lia].
          rewrite lookup_app_r in Hi by lia.
          rewrite Hlen, Nat.sub_diag in Hi. simpl in Hi. congruence. }
        rewrite lookup_app_l in Hi by lia. split; [done|].
        intros j Hj Hk. apply (Hlast j Hj).
        apply lookup_lt_Some in Hk as Hjl. by rewrite lookup_app_l.
Qed.

Lemma build_nodeMap_is_Some (l : list node) (k : string) :
  is_Some (build_nodeMap l !! k) <-> k ∈ ids l.
Proof.
  rewrite <- not_eq_None_Some, build_nodeMap_None.
  split; [apply dec_stable | auto].
Qed.

Lemma build_nodeMap_in_range (l : list node) (k : string) (i : nat) :
  build_nodeMap l !! k = Some i -> is_Some (l !! i).
Proof.
  intros [Hi _]%build_nodeMap_Some. apply lookup_lt_is_Some.
  apply lookup_lt_Some in Hi. by rewrite length_fmap in Hi.
Qed.

Lemma nodeMap_build_snoc (l : list node) (n : node) :
  NodeMap.build (l ++ [n]) = NodeMap.set (NodeMap.build l) (id n) (length l).
Proof.
  unfold NodeMap.build. rewrite imap_app, foldl_app. simpl.
  by rewrite Nat.add_0_r.
Qed.

(** As long as no node has the id ["__proto__"], the prototype of
    [nodeMap] stays [Object.prototype] and its own properties are the
    ids of the nodes. *)
Lemma nodeMap_build_plain (l : list node) :
  "__proto__" ∉ ids l ->
  NodeMap.build l
  = {| NodeMap.nm_own := build_nodeMap l; NodeMap.nm_proto := None |}.
Proof.
  induction l as [|n l IH] using rev_ind; [done|].
  rewrite fmap_app, not_elem_of_app. simpl. rewrite list_elem_of_singleton.
  intros [Hl Hn]. rewrite nodeMap_build_snoc, build_nodeMap_snoc, IH by done.
  unfold NodeMap.set. rewrite decide_False by congruence. done.
Qed.

Lemma resolve_plain (l l' : list node) (k : string) :
  "__proto__" ∉ ids l ->
  NodeMap.resolve (NodeMap.build l) l' k
  = match build_nodeMap l !! k with
    | Some i => Some (NodeMap.RNode i)
    | None => if inherited k then Some NodeMap.RAlien else None
    end.
Proof.
  intros Hl. rewrite nodeMap_build_plain by done. unfold NodeMap.resolve.
  simpl. destruct (build_nodeMap l !! k); [done|].
  destruct (decide (k = "__proto__")) as [->|]; done.
Qed.

(** An end that is the id of a node, or that is no inherited name,
    resolves as it does in the own properties. *)
Lemma resolve_own (l l' : list node) (k : string) :
  "__proto__" ∉ ids l ->
  k ∈ ids l \/ inherited k = false ->
  NodeMap.resolve (NodeMap.build l) l' k
  = NodeMap.RNode <$> build_nodeMap l !! k.
Proof.
  intros Hl Hk. rewrite resolve_plain by done.
  destruct (build_nodeMap l !! k) eqn:Hm; [done|].
  destruct Hk as [Hk| ->]; [|done].
  apply build_nodeMap_None in Hm. done.
Qed.

Lemma jsx_attract_edge_length (m : gmap string nat) (l : list node)
    (e : BackendEdge) :
  length (attract_edge m l e) = length l.
Proof.
  unfold attract_edge.
  destruct (m !! be_from e) as [ia|]; [|done].
  destruct (m !! be_to e) as [ib|]; [|done].
  destruct (l !! ia) as [a|]; [|done]. destruct (l !! ib) as [b|]; [|done].
  by rewrite !length_alter.
Qed.

Lemma attract_edge_own (l l' : list node) (e : BackendEdge) :
  "__proto__" ∉ ids l ->
  length l' = length l ->
  be_from e ∈ ids l \/ inherited (be_from e) = false ->
  be_to e ∈ ids l \/ inherited (be_to e) = false ->
  NodeMap.attract_edge (NodeMap.build l) l' e
  = Normal (attract_edge (build_nodeMap l) l' e).
Proof.
  intros Hl Hlen Hf Ht. unfold NodeMap.attract_edge, attract_edge.
  rewrite !resolve_own by done.
  destruct (build_nodeMap l !! be_from e) as [ia|] eqn:Ha; [|done].
  destruct (build_nodeMap l !! be_to e) as [ib|] eqn:Hb; [|done].
  simpl.
  destruct (build_nodeMap_in_range _ _ _ Ha) as [a0 Ha0].
  destruct (build_nodeMap_in_range _ _ _ Hb) as [b0 Hb0].
  apply lookup_lt_Some in Ha0, Hb0. rewrite <- Hlen in Ha0, Hb0.
  apply lookup_lt_is_Some in Ha0 as [a Hla], Hb0 as [b Hlb].
  rewrite Hla, Hlb. done.
Qed.

Lemma attraction_own (l l' : list node) (es : list BackendEdge) :
  "__proto__" ∉ ids l ->
  length l' = length l ->
  Forall (fun e => (be_from e ∈ ids l \/ inherited (be_from e) = false) /\
                   (be_to e ∈ ids l \/ inherited (be_to e) = false)) es ->
  foldl (fun acc edge =>
           outcome_bind acc
             (fun nodes => NodeMap.attract_edge (NodeMap.build l) nodes edge))
        (Normal l') es
  = Normal (foldl (attract_edge (build_nodeMap l)) l' es).
Proof.
  intros Hl Hlen Hes. revert l' Hlen.
  induction Hes as [|e es [Hf Ht] _ IH]; intros l' Hlen; [done|].
  simpl. rewrite attract_edge_own by done. apply IH.
  by rewrite jsx_attract_edge_length.
Qed.

Lemma jsx_repulsion_ids (l : list node) : ids (repulsion l) = ids l.
Proof.
  pose proof (jsx_repulsion_frame l) as Hf.
  apply (f_equal (fmap (fun p : string * string * string * num * num =>
                          p.1.1.1.1))) in Hf.
  by rewrite <- !list_fmap_compose in Hf.
Qed.

(** On an edge list that resolves in own properties the tick ends
    normally, with the nodes that the computation on own properties
    gives. *)
Lemma simulate_own (nodes : list node) (edges : list BackendEdge) :
  jsx_plain nodes edges ->
  NodeMap.simulate nodes edges = Normal (simulate nodes edges).
Proof.
  intros [Hp Hes]. unfold NodeMap.simulate, simulate.
  destruct nodes as [|n0 nodes]; [done|].
  unfold NodeMap.attraction, attraction.
  rewrite attraction_own; [done| |done|].
  - by rewrite jsx_repulsion_ids.
  - by rewrite jsx_repulsion_ids.
Qed.
(** X8: as long as no node has the id ["__proto__"], [nodeMap[k]] is the
    last node that carries the id [k]; when no node carries it,
    [nodeMap[k]] is the member inherited from [Object.prototype] if [k]
    names one, and [undefined] otherwise. *)
Theorem X8_nodeMap_last_node_wins (nodes : list node) (k : string) :
  "__proto__" ∉ ids nodes ->
  (forall i, NodeMap.resolve (NodeMap.build nodes) nodes k
             = Some (NodeMap.RNode i) <->
     ids nodes !! i = Some k /\
     forall j, (i < j)%nat -> ids nodes !! j <> Some k) /\
  (k ∉ ids nodes ->
   NodeMap.resolve (NodeMap.build nodes) nodes k
   = if inherited k then Some NodeMap.RAlien else None).
Proof.
  intros Hp. rewrite resolve_plain by done. split.
  - intros i. rewrite <- build_nodeMap_Some.
    destruct (build_nodeMap nodes !! k) as [i'|].
    + split; congruence.
    + split; [by destruct (inherited k)|done].
  - intros Hk%build_nodeMap_None. by rewrite Hk.
Qed.

(** X9: as long as no node has the id ["__proto__"], the edge loop of
    [draw] strokes a line for an edge exactly when each of its ends is
    the id of a node or an inherited name. *)
Theorem X9_jsx_edge_drawn_iff_resolved (nodes : list node) (edge : BackendEdge) :
  "__proto__" ∉ ids nodes ->
  (NodeMap.edge_stroked nodes edge = true <->
   (be_from edge ∈ ids nodes \/ inherited (be_from edge) = true) /\
   (be_to edge ∈ ids nodes \/ inherited (be_to edge) = true)).
Proof.
  intros Hp. unfold NodeMap.edge_stroked. rewrite bool_decide_eq_true.
  assert (Hend : forall k,
            is_Some (NodeMap.resolve (NodeMap.build nodes) nodes k) <->
            k ∈ ids nodes \/ inherited k = true).
  { intros k. rewrite resolve_plain by done.
    rewrite <- build_nodeMap_is_Some.
    destruct (build_nodeMap nodes !! k) as [i|].
    - split; [by left|done].
    - destruct (inherited k).
      + split; [by right|done].
      + split; [by intros [? ?]|by intros [[? ?]|?]]. }
  by rewrite !Hend.
Qed.

Lemma attract_edge_unresolved (l l' : list node) (e : BackendEdge) :
  "__proto__" ∉ ids l ->
  ((be_from e ∉ ids l) /\ inherited (be_from e) = false) \/
  ((be_to e ∉ ids l) /\ inherited (be_to e) = false) ->
  NodeMap.attract_edge (NodeMap.build l) l' e = Normal l'.
Proof.
  intros Hp Hun. unfold NodeMap.attract_edge. rewrite !resolve_plain by done.
  destruct Hun as [[Hf%build_nodeMap_None Hi]|[Ht%build_nodeMap_None Hi]].
  - by rewrite Hf, Hi.
  - rewrite Ht, Hi. destruct (build_nodeMap l !! be_from e); [done|].
    by destruct (inherited (be_from e)).
Qed.

(** X10: as long as no node has the id ["__proto__"], an edge with an
    end that is neither the id of a node nor an inherited name exerts
    no force: the tick with it equals the tick without it. *)
Theorem X10_jsx_unresolved_edge_is_inert
    (nodes : list node) (es1 es2 : list BackendEdge) (e : BackendEdge) :
  "__proto__" ∉ ids nodes ->
  ((be_from e ∉ ids nodes) /\ inherited (be_from e) = false) \/
  ((be_to e ∉ ids nodes) /\ inherited (be_to e) = false) ->
  NodeMap.simulate nodes (es1 ++ e :: es2) = NodeMap.simulate nodes (es1 ++ es2).
Proof.
  intros Hp Hun. unfold NodeMap.simulate. destruct nodes as [|n0 nodes]; [done|].
  unfold NodeMap.attraction. rewrite !foldl_app. simpl.
  set (acc := foldl _ _ es1).
  assert (Hskip : outcome_bind acc
            (fun l' => NodeMap.attract_edge
                         (NodeMap.build (repulsion (n0 :: nodes))) l' e) = acc).
  { destruct acc as [l'|l']; [|done]. simpl.
    apply attract_edge_unresolved; by rewrite jsx_repulsion_ids. }
  by rewrite Hskip.
Qed.
End JsxNodeMap.

Lemma finite_pair_jsx_ids :
  "__proto__" ∉ NetworkGraph.id <$> finite_pair_jsx.
Proof.
  simpl. intros [[=]|[[=]|[]%elem_of_nil]%elem_of_cons]%elem_of_cons.
Qed.

Lemma X8_nodeMap_last_node_wins_witness :
  ("__proto__" ∉ NetworkGraph.id <$> finite_pair_jsx) /\
  (forall i, NodeMap.resolve (NodeMap.build finite_pair_jsx) finite_pair_jsx
               "constructor" = Some (NodeMap.RNode i) <->
     (NetworkGraph.id <$> finite_pair_jsx) !! i = Some "constructor" /\
     forall j, (i < j)%nat ->
       (NetworkGraph.id <$> finite_pair_jsx) !! j <> Some "constructor") /\
  ("constructor" ∉ NetworkGraph.id <$> finite_pair_jsx ->
   NodeMap.resolve (NodeMap.build finite_pair_jsx) finite_pair_jsx "constructor"
   = if PlainObject.inherited "constructor"
     then Some NodeMap.RAlien else None).
Proof.
  split; [exact finite_pair_jsx_ids|].
  exact (X8_nodeMap_last_node_wins finite_pair_jsx "constructor"
           finite_pair_jsx_ids).
Defined.

Lemma X9_jsx_edge_drawn_iff_resolved_witness :
  let e := {| be_from := "constructor"; be_to := "b";
              be_label := "mentioned_in" |} in
  ("__proto__" ∉ NetworkGraph.id <$> finite_pair_jsx) /\
  (NodeMap.edge_stroked finite_pair_jsx e = true <->
   (be_from e ∈ NetworkGraph.id <$> finite_pair_jsx \/
    PlainObject.inherited (be_from e) = true) /\
   (be_to e ∈ NetworkGraph.id <$> finite_pair_jsx \/
    PlainObject.inherited (be_to e) = true)).
Proof.
  intros e. split; [exact finite_pair_jsx_ids|].
  exact (X9_jsx_edge_drawn_iff_resolved finite_pair_jsx e finite_pair_jsx_ids).
Defined.

Lemma X10_jsx_unresolved_edge_is_inert_witness :
  let e := {| be_from := "x"; be_to := "b"; be_label := "mentioned_in" |} in
  ("__proto__" ∉ NetworkGraph.id <$> finite_pair_jsx) /\
  (((be_from e ∉ NetworkGraph.id <$> finite_pair_jsx) /\
    PlainObject.inherited (be_from e) = false) \/
   ((be_to e ∉ NetworkGraph.id <$> finite_pair_jsx) /\
    PlainObject.inherited (be_to e) = false)) /\
  NodeMap.simulate finite_pair_jsx ([] ++ e :: [])
  = NodeMap.simulate finite_pair_jsx ([] ++ []).
Proof.
  intros e.
  assert (Hun : ((be_from e ∉ NetworkGraph.id <$> finite_pair_jsx) /\
                 PlainObject.inherited (be_from e) = false) \/
                ((be_to e ∉ NetworkGraph.id <$> finite_pair_jsx) /\
                 PlainObject.inherited (be_to e) = false)).
  { left. split; [|reflexivity]. simpl.
    intros [[=]|[[=]|[]%elem_of_nil]%elem_of_cons]%elem_of_cons. }
  split; [exact finite_pair_jsx_ids|]. split; [exact Hun|].
  exact (X10_jsx_unresolved_edge_is_inert finite_pair_jsx [] [] e
           finite_pair_jsx_ids Hun).
Defined.

(** ** SimulationEngine: equal and opposite increments *)

Lemma list_alter_at {A : Type} (f : A -> A) (i : nat) (l : list A) (a : A) :
  l !! i = Some a -> alter f i l = <[i := f a]> l.
Proof.
  intros Hi. rewrite list_insert_alter. apply list_alter_ext; [|done].
  intros a' Ha'. congruence.
Qed.

Lemma list_alter_pair {A : Type} (f1 f2 g1 g2 : A -> A) (i j : nat)
    (l : list A) (a b : A) :
  i <> j -> l !! i = Some a -> l !! j = Some b ->
  alter g2 j (alter g1 j (alter f2 i (alter f1 i l)))
  = <[j := g2 (g1 b)]> (<[i := f2 (f1 a)]> l).
Proof.
  intros Hij Hi Hj. rewrite !list_alter_alter_eq.
  rewrite (list_alter_at _ i l a) by done.
  rewrite (list_alter_at (g2 ∘ g1) j _ b); [done|].
  by rewrite list_lookup_insert_ne.
Qed.

Section JsxIncrements.
Import PlainObject NetworkGraph.
Context {num : Type} `{JSNumber num} `{JSNaN num}.
Local Abbreviation node := (GraphNode num).

End JsxIncrements.



Section TsxIncrements.
Import NetworkPage.
Context {num : Type} `{JSNumber num}.
Local Abbreviation node := (NetworkNode num).

End TsxIncrements.


(** ** Arithmetic with the special values *)

Section Finiteness.
Import XReal.
Local Abbreviation num := xreal.

Lemma finite_add (a b : num) : finite a -> finite b -> finite (nadd a b).
Proof. by destruct a, b. Qed.

Lemma finite_sub (a b : num) : finite a -> finite b -> finite (nsub a b).
Proof. by destruct a, b. Qed.

Lemma finite_mul (a b : num) : finite a -> finite b -> finite (nmul a b).
Proof. by destruct a, b. Qed.

Lemma finite_div (a b : num) : finite a -> nonzero b -> finite (ndiv a b).
Proof.
  destruct a as [p| | |], b as [q| | |]; try done. simpl.
  intros _ Hq. by destruct (Req_dec_T q 0).
Qed.

Lemma finite_max (a b : num) : finite a -> finite b -> finite (nmax a b).
Proof.
  destruct a, b; try done. simpl. unfold max. simpl. by destruct (Rltb _ _).
Qed.

Lemma finite_min (a b : num) : finite a -> finite b -> finite (nmin a b).
Proof.
  destruct a, b; try done. simpl. unfold min. simpl. by destruct (Rltb _ _).
Qed.

Lemma finite_ofZ (z : Z) : finite (nofZ z).
Proof. done. Qed.

Lemma nonzero_finite (a : num) : nonzero a -> finite a.
Proof. by destruct a. Qed.

Lemma nonzero_mul (a b : num) : nonzero a -> nonzero b -> nonzero (nmul a b).
Proof. destruct a, b; try done. simpl. intros. by apply Rmult_integral_contrapositive. Qed.

Lemma finite_dec (m k : Z) : (0 <= k)%Z -> finite (ndec m k).
Proof.
  intros Hk. apply finite_div; [done|]. simpl.
  apply not_0_IZR. pose proof (Z.pow_pos_nonneg 10 k). lia.
Qed.

(** The Euclidean distance of finite offsets, as a real. *)
Lemma euclid_fin (p q : R) :
  euclid (Fin p) (Fin q) = Fin (R_sqrt.sqrt (p * p + q * q)).
Proof.
  unfold euclid. simpl. destruct (Rlt_dec _ _) as [Hneg|]; [|done].
  pose proof (sumsq_nonneg p q). lra.
Qed.

Lemma jsx_dist_nonzero (dx dy : num) :
  finite dx -> finite dy -> nonzero (NetworkGraph.dist_of dx dy).
Proof.
  destruct dx as [p| | |], dy as [q| | |]; try done. intros _ _.
  unfold NetworkGraph.dist_of. rewrite euclid_fin. simpl. unfold max. simpl.
  unfold Rltb. destruct (Rlt_dec _ _) as [Hlt|Hge]; simpl; [lra|].
  pose proof (sqrt_pos (p * p + q * q)). lra.
Qed.

Lemma tsx_dist_nonzero_x (dx dy : num) :
  finite dx -> finite dy -> nonzero (NetworkPage.dist_of dx dy).
Proof.
  destruct dx as [p| | |], dy as [q| | |]; try done. intros _ _.
  unfold NetworkPage.dist_of, nor. rewrite euclid_fin. simpl. unfold Rtruthy.
  destruct (Req_dec_T _ _); simpl; [lra|done].
Qed.

Lemma finite_along (d dist force : num) :
  finite d -> nonzero dist -> finite force -> finite (along d dist force).
Proof. intros. unfold along. apply finite_mul; [by apply finite_div|done]. Qed.
End Finiteness.

Ltac finite_arith :=
  repeat first
    [ assumption
    | apply finite_ofZ
    | apply finite_dec; lia
    | apply finite_along
    | apply finite_sub | apply finite_add | apply finite_mul
    | apply finite_max | apply finite_min
    | apply nonzero_mul
    | apply finite_div ].

(** ** SimulationEngine: the distance used by repulsion *)

Section RepulsionDistance.
Import XReal.

Lemma Rltb_false (a b : R) : Rltb a b = false <-> (b <= a)%R.
Proof. unfold Rltb. destruct (Rlt_dec a b); split; try done; lra. Qed.

(** The distance computed from offsets that are not NaN is a
    non-negative real or plus infinity. *)
Lemma euclid_range (dx dy : xreal) :
  is_nan dx = false -> is_nan dy = false ->
  (exists s, (0 <= s)%R /\ euclid dx dy = Fin s) \/ euclid dx dy = PInf.
Proof.
  destruct dx as [p| | |], dy as [q| | |]; try done; intros _ _;
    try (right; reflexivity).
  left. rewrite euclid_fin. eexists. split; [apply sqrt_pos|done].
Qed.

Lemma jsx_dist_range (dx dy : xreal) :
  is_nan dx = false -> is_nan dy = false ->
  (exists r, (1 <= r)%R /\ NetworkGraph.dist_of dx dy = Fin r) \/
  NetworkGraph.dist_of dx dy = PInf.
Proof.
  intros Hx Hy. unfold NetworkGraph.dist_of.
  destruct (euclid_range dx dy Hx Hy) as [(s & Hs & ->)| ->]; [|by right].
  left. cbn [nmax nofZ xreal_JSNumber]. unfold max. cbn [is_nan orb ltb].
  destruct (Rltb s 1) eqn:Hlt.
  - exists 1%R. split; [lra|done].
  - exists s. split; [by apply Rltb_false|done].
Qed.

Lemma float_floor (e : PrimFloat.float) :
  PrimFloat.ltb (F64.max e (F64.ofZ 1)) (F64.ofZ 1) = false.
Proof.
  unfold F64.max.
  destruct (PrimFloat.is_nan e || PrimFloat.is_nan (F64.ofZ 1)); [done|].
  destruct (PrimFloat.ltb e (F64.ofZ 1)) eqn:Hlt; [done|].
  destruct (PrimFloat.ltb (F64.ofZ 1) e); [done|].
  by destruct (PrimFloat.get_sign e).
Qed.

(** C5 (as amended): in [NetworkGraph.jsx] the distance that the
    repulsion of a pair divides by is [Math.max(sqrt, 1)]: on doubles it
    never tests below 1, and for offsets that are not NaN the force
    [1500 / d²] is a number from 0 to 1500.  In [NetworkPage.tsx] the
    distance that the repulsion of a pair divides by is [sqrt || 1], the
    computed distance itself unless that is 0 or NaN: for offsets that
    are not NaN the force [800 / d²] is a number that is not negative,
    not above 800 when the computed distance does not test below 1, and
    not below 800 when it does. *)
Theorem C5_repulsion_distance :
  (forall (l : list (NetworkGraph.GraphNode PrimFloat.float)) (i j : nat)
          (a b : NetworkGraph.GraphNode PrimFloat.float),
     i <> j -> l !! i = Some a -> l !! j = Some b ->
     let dx := nsub (NetworkGraph.x b) (NetworkGraph.x a) in
     let dy := nsub (NetworkGraph.y b) (NetworkGraph.y a) in
     let d := NetworkGraph.dist_of dx dy in
     let force := NetworkGraph.repulsion_force d in
     PrimFloat.ltb d (nofZ 1) = false /\
     NetworkGraph.repulse_pair i j l
     = <[j := NetworkGraph.vy_add (along dy d force)
               (NetworkGraph.vx_add (along dx d force) b)]>
         (<[i := NetworkGraph.vy_sub (along dy d force)
                   (NetworkGraph.vx_sub (along dx d force) a)]> l)) /\
  (forall (l : list (NetworkNode PrimFloat.float)) (i j : nat)
          (a b : NetworkNode PrimFloat.float),
     i <> j -> l !! i = Some a -> l !! j = Some b ->
     let dx := nsub (x b) (x a) in
     let dy := nsub (y b) (y a) in
     let d := NetworkPage.dist_of dx dy in
     let force := NetworkPage.repulsion_force d in
     d = (if F64.truthy (euclid dx dy) then euclid dx dy else nofZ 1) /\
     NetworkPage.repulse_pair i j l
     = <[j := NetworkPage.vy_add (along dy d force)
               (NetworkPage.vx_add (along dx d force) b)]>
         (<[i := NetworkPage.vy_sub (along dy d force)
                   (NetworkPage.vx_sub (along dx d force) a)]> l)) /\
  (forall dx dy : xreal,
     is_nan dx = false -> is_nan dy = false ->
     let d := NetworkGraph.dist_of dx dy in
     let force := NetworkGraph.repulsion_force d in
     is_nan d = false /\ ltb d (nofZ 1) = false /\
     is_nan force = false /\
     ltb force (nofZ 0) = false /\ ltb (nofZ 1500) force = false) /\
  (forall dx dy : xreal,
     is_nan dx = false -> is_nan dy = false ->
     let e := euclid dx dy in
     let d := NetworkPage.dist_of dx dy in
     let force := NetworkPage.repulsion_force d in
     d = (if truthy e then e else nofZ 1) /\
     is_nan force = false /\ ltb force (nofZ 0) = false /\
     (ltb e (nofZ 1) = false -> ltb (nofZ 800) force = false) /\
     (ltb e (nofZ 1) = true -> ltb force (nofZ 800) = false)).
Proof.
  split; [|split; [|split]].
  - intros l i j a b Hij Hi Hj dx dy d force. split; [apply float_floor|].
    unfold NetworkGraph.repulse_pair. rewrite Hi, Hj. cbv zeta.
    by apply list_alter_pair.
  - intros l i j a b Hij Hi Hj dx dy d force. split; [done|].
    unfold NetworkPage.repulse_pair. rewrite Hi, Hj. cbv zeta.
    by apply list_alter_pair.
  - intros dx dy Hx Hy d force. subst force.
    destruct (jsx_dist_range dx dy Hx Hy) as [(r & Hr & Hd)|Hd];
      fold d in Hd; rewrite Hd; unfold NetworkGraph.repulsion_force;
      cbn [nmul ndiv nofZ xreal_JSNumber mul div is_nan ltb].
    + destruct (Req_dec_T (r * r) 0) as [H0|_]; [nra|].
      cbn [is_nan ltb].
      assert (Hrr : (1 <= r * r)%R) by nra.
      assert (Hf : (0 <= 1500 / (r * r) <= 1500)%R).
      { split.
        - apply Rlt_le, Rdiv_lt_0_compat; lra.
        - apply div_le_of; lra. }
      repeat split; try (apply Rltb_false; lra).
    + repeat split; apply Rltb_false; lra.
  - intros dx dy Hx Hy e d force. subst force d.
    unfold NetworkPage.dist_of, nor. fold e.
    cbn [ntruthy xreal_JSNumber]. split; [done|].
    destruct (euclid_range dx dy Hx Hy) as [(s & Hs & He)|He];
      fold e in He; rewrite He; unfold NetworkPage.repulsion_force;
      cbn [truthy nmul ndiv nofZ xreal_JSNumber mul div is_nan ltb].
    + unfold Rtruthy. destruct (Req_dec_T s 0) as [->|Hs0];
        cbn [nmul ndiv nofZ xreal_JSNumber mul div is_nan ltb].
      * destruct (Req_dec_T (1 * 1) 0) as [H0|_]; [lra|].
        cbn [is_nan ltb].
        replace (800 / (1 * 1))%R with 800%R by lra.
        repeat split; intros; apply Rltb_false; lra.
      * destruct (Req_dec_T (s * s) 0) as [H0|_]; [nra|].
        cbn [is_nan ltb].
        assert (Hss : (0 < s * s)%R) by nra.
        split; [done|]. split.
        { apply Rltb_false, Rlt_le, Rdiv_lt_0_compat; lra. }
        split.
        -- intros H1%Rltb_false. apply Rltb_false, div_le_of; nra.
        -- intros H1%Rltb_spec. apply Rltb_false, Rlt_le, div_gt_of; nra.
    + repeat split; intros; try done; apply Rltb_false; lra.
Qed.
End RepulsionDistance.

Lemma C5_repulsion_distance_witness :
  (exists a b,
     0%nat <> 1%nat /\ rounding_pair !! 0%nat = Some a /\
     rounding_pair !! 1%nat = Some b /\
     PrimFloat.ltb
       (NetworkGraph.dist_of
          (nsub (NetworkGraph.x b) (NetworkGraph.x a))
          (nsub (NetworkGraph.y b) (NetworkGraph.y a)))
       (nofZ 1) = false) /\
  XReal.is_nan (XReal.Fin (/ 2)) = false /\
  XReal.is_nan (XReal.Fin 0) = false /\
  XReal.ltb (euclid (XReal.Fin (/ 2)) (XReal.Fin 0)) (nofZ 1) = true /\
  XReal.ltb (NetworkPage.repulsion_force
               (NetworkPage.dist_of (XReal.Fin (/ 2)) (XReal.Fin 0)))
            (nofZ 800) = false.
Proof.
  assert (H01 : 0%nat <> 1%nat) by lia.
  assert (Hx : XReal.is_nan (XReal.Fin (/ 2)) = false) by reflexivity.
  assert (Hy : XReal.is_nan (XReal.Fin 0) = false) by reflexivity.
  assert (He : XReal.ltb (euclid (XReal.Fin (/ 2)) (XReal.Fin 0)) (nofZ 1)
               = true).
  { rewrite euclid_fin. cbn [XReal.ltb nofZ xreal_JSNumber].
    apply Rltb_spec.
    replace (/ 2 * / 2 + 0 * 0)%R with (/ 2 * / 2)%R by lra.
    rewrite sqrt_square by lra. lra. }
  split.
  { eexists _, _.
    assert (Ha : rounding_pair !! 0%nat = Some _) by reflexivity.
    assert (Hb : rounding_pair !! 1%nat = Some _) by reflexivity.
    split; [exact H01|]. split; [exact Ha|]. split; [exact Hb|].
    exact (proj1 (proj1 C5_repulsion_distance rounding_pair 0%nat 1%nat
                    _ _ H01 Ha Hb)). }
  split; [exact Hx|]. split; [exact Hy|]. split; [exact He|].
  exact (proj2 (proj2 (proj2 (proj2
           (proj2 (proj2 (proj2 C5_repulsion_distance)) _ _ Hx Hy)))) He).
Defined.

(** C5, as stated, fails in [NetworkPage.tsx]: for two nodes 0.5 apart
    the distance used is 0.5, not 1, the force is 3200 > K_rep = 800, and
    the repulsion step changes the two velocities by 3200 each. *)
Lemma C5_tsx_distance_not_floored :
  NetworkPage.dist_of (nsub (ndec 4005 1) (nofZ 400)) (nsub (nofZ 300) (nofZ 300))
    = ndec 5 1 :> PrimFloat.float /\
  NetworkPage.repulsion_force (ndec 5 1) = nofZ 3200 :> PrimFloat.float /\
  vx <$> NetworkPage.repulsion close_pair = [nofZ (-3200); nofZ 3200] /\
  PrimFloat.ltb (nofZ 800) (nofZ 3200) = true.
Proof. repeat split; vm_compute; reflexivity. Qed.

(** ** SimulationEngine: finiteness *)

Section JsxFiniteness.
Import XReal NetworkGraph.
Local Abbreviation node := (GraphNode xreal).

Lemma jsx_finite_vx_add (f : xreal) (n : node) :
  finite f -> jsx_finite n -> jsx_finite (vx_add f n).
Proof.
  intros Hf (? & ? & ? & ?).
  unfold jsx_finite, vx_add, vx_sub, vy_add, vy_sub.
  cbn [x y vx vy set_vx set_vy]. repeat split; finite_arith.
Qed.

Lemma jsx_finite_vx_sub (f : xreal) (n : node) :
  finite f -> jsx_finite n -> jsx_finite (vx_sub f n).
Proof.
  intros Hf (? & ? & ? & ?).
  unfold jsx_finite, vx_add, vx_sub, vy_add, vy_sub.
  cbn [x y vx vy set_vx set_vy]. repeat split; finite_arith.
Qed.

Lemma jsx_finite_vy_add (f : xreal) (n : node) :
  finite f -> jsx_finite n -> jsx_finite (vy_add f n).
Proof.
  intros Hf (? & ? & ? & ?).
  unfold jsx_finite, vx_add, vx_sub, vy_add, vy_sub.
  cbn [x y vx vy set_vx set_vy]. repeat split; finite_arith.
Qed.

Lemma jsx_finite_vy_sub (f : xreal) (n : node) :
  finite f -> jsx_finite n -> jsx_finite (vy_sub f n).
Proof.
  intros Hf (? & ? & ? & ?).
  unfold jsx_finite, vx_add, vx_sub, vy_add, vy_sub.
  cbn [x y vx vy set_vx set_vy]. repeat split; finite_arith.
Qed.

Lemma jsx_finite_shift (f1 f2 f3 f4 : xreal) (i j : nat) (l : list node) :
  finite f1 -> finite f2 -> finite f3 -> finite f4 ->
  Forall jsx_finite l ->
  Forall jsx_finite
    (alter (vy_sub f4) j (alter (vx_sub f3) j
       (alter (vy_add f2) i (alter (vx_add f1) i l)))) /\
  Forall jsx_finite
    (alter (vy_add f4) j (alter (vx_add f3) j
       (alter (vy_sub f2) i (alter (vx_sub f1) i l)))).
Proof.
  intros. split; repeat apply Forall_alter;
    auto using jsx_finite_vx_add, jsx_finite_vx_sub,
               jsx_finite_vy_add, jsx_finite_vy_sub.
Qed.

Lemma jsx_repulse_pair_finite (i j : nat) (l : list node) :
  Forall jsx_finite l -> Forall jsx_finite (repulse_pair i j l).
Proof.
  intros Hl. unfold repulse_pair.
  destruct (l !! i) as [a|] eqn:Hi; [|done].
  destruct (l !! j) as [b|] eqn:Hj; [|done].
  destruct (Forall_lookup_1 _ _ _ _ Hl Hi) as (? & ? & ? & ?).
  destruct (Forall_lookup_1 _ _ _ _ Hl Hj) as (? & ? & ? & ?).
  cbv zeta.
  assert (Hd : nonzero (dist_of (nsub (x b) (x a)) (nsub (y b) (y a))))
    by (apply jsx_dist_nonzero; finite_arith).
  pose proof (nonzero_finite _ Hd).
  assert (finite (repulsion_force (dist_of (nsub (x b) (x a)) (nsub (y b) (y a)))))
    by (unfold repulsion_force; finite_arith).
  apply jsx_finite_shift; finite_arith.
Qed.

Lemma jsx_attract_edge_finite (m : gmap string nat) (l : list node)
    (e : BackendEdge) :
  Forall jsx_finite l -> Forall jsx_finite (attract_edge m l e).
Proof.
  intros Hl. unfold attract_edge.
  destruct (m !! be_from e) as [ia|]; [|done].
  destruct (m !! be_to e) as [ib|]; [|done].
  destruct (l !! ia) as [a|] eqn:Hi; [|done].
  destruct (l !! ib) as [b|] eqn:Hj; [|done].
  destruct (Forall_lookup_1 _ _ _ _ Hl Hi) as (? & ? & ? & ?).
  destruct (Forall_lookup_1 _ _ _ _ Hl Hj) as (? & ? & ? & ?).
  cbv zeta.
  assert (Hd : nonzero (dist_of (nsub (x b) (x a)) (nsub (y b) (y a))))
    by (apply jsx_dist_nonzero; finite_arith).
  pose proof (nonzero_finite _ Hd).
  assert (finite (attraction_force (dist_of (nsub (x b) (x a)) (nsub (y b) (y a)))))
    by (unfold attraction_force; finite_arith).
  apply jsx_finite_shift; finite_arith.
Qed.

Lemma jsx_gravity_node_finite (n : node) :
  jsx_finite n -> jsx_finite (gravity_node n).
Proof.
  intros (? & ? & ? & ?). unfold gravity_node, jsx_finite.
  cbn [x y vx vy set_x set_y set_vx set_vy]. repeat split; finite_arith.
Qed.

Lemma jsx_simulate_finite (nodes : list node) (edges : list BackendEdge) :
  Forall jsx_finite nodes -> Forall jsx_finite (simulate nodes edges).
Proof.
  intros Hl. unfold simulate. destruct nodes as [|n nodes]; [done|].
  unfold gravity. apply Forall_fmap.
  eapply Forall_impl; [|apply jsx_gravity_node_finite].
  unfold attraction. apply foldl_preserves; [apply jsx_attract_edge_finite|].
  unfold repulsion. apply foldl_preserves; [|done].
  intros l i Hfin. unfold repulse_from.
  apply foldl_preserves; [|done]. intros; by apply jsx_repulse_pair_finite.
Qed.
End JsxFiniteness.

Section TsxFiniteness.
Import XReal NetworkPage.
Local Abbreviation node := (NetworkNode xreal).

Lemma tsx_finite_vx_add (f : xreal) (n : node) :
  finite f -> tsx_finite n -> tsx_finite (vx_add f n).
Proof.
  intros Hf (? & ? & ? & ?). unfold tsx_finite, vx_add.
  cbn [x y vx vy set_vx]. repeat split; finite_arith.
Qed.

Lemma tsx_finite_vx_sub (f : xreal) (n : node) :
  finite f -> tsx_finite n -> tsx_finite (vx_sub f n).
Proof.
  intros Hf (? & ? & ? & ?). unfold tsx_finite, vx_sub.
  cbn [x y vx vy set_vx]. repeat split; finite_arith.
Qed.

Lemma tsx_finite_vy_add (f : xreal) (n : node) :
  finite f -> tsx_finite n -> tsx_finite (vy_add f n).
Proof.
  intros Hf (? & ? & ? & ?). unfold tsx_finite, vy_add.
  cbn [x y vx vy set_vy]. repeat split; finite_arith.
Qed.

Lemma tsx_finite_vy_sub (f : xreal) (n : node) :
  finite f -> tsx_finite n -> tsx_finite (vy_sub f n).
Proof.
  intros Hf (? & ? & ? & ?). unfold tsx_finite, vy_sub.
  cbn [x y vx vy set_vy]. repeat split; finite_arith.
Qed.

Lemma tsx_repulse_pair_finite (i j : nat) (l : list node) :
  Forall tsx_finite l -> Forall tsx_finite (repulse_pair i j l).
Proof.
  intros Hl. unfold repulse_pair.
  destruct (l !! i) as [a|] eqn:Hi; [|done].
  destruct (l !! j) as [b|] eqn:Hj; [|done].
  destruct (Forall_lookup_1 _ _ _ _ Hl Hi) as (? & ? & ? & ?).
  destruct (Forall_lookup_1 _ _ _ _ Hl Hj) as (? & ? & ? & ?).
  cbv zeta.
  assert (Hd : nonzero (dist_of (nsub (x b) (x a)) (nsub (y b) (y a))))
    by (apply tsx_dist_nonzero_x; finite_arith).
  pose proof (nonzero_finite _ Hd).
  assert (finite (repulsion_force (dist_of (nsub (x b) (x a)) (nsub (y b) (y a)))))
    by (unfold repulsion_force; finite_arith).
  repeat apply Forall_alter; try done; intros n _ Hn;
    [ apply tsx_finite_vx_sub | apply tsx_finite_vy_sub
    | apply tsx_finite_vx_add | apply tsx_finite_vy_add ]; finite_arith.
Qed.

Lemma tsx_attract_conn_finite (k : nat) (l : list node) (c : string) :
  Forall tsx_finite l -> Forall tsx_finite (attract_conn k l c).
Proof.
  intros Hl. unfold attract_conn.
  destruct (find_id l c) as [t|]; [|done].
  destruct (l !! k) as [a|] eqn:Hi; [|done].
  destruct (l !! t) as [b|] eqn:Hj; [|done].
  destruct (Forall_lookup_1 _ _ _ _ Hl Hi) as (? & ? & ? & ?).
  destruct (Forall_lookup_1 _ _ _ _ Hl Hj) as (? & ? & ? & ?).
  cbv zeta.
  assert (Hd : nonzero (dist_of (nsub (x b) (x a)) (nsub (y b) (y a))))
    by (apply tsx_dist_nonzero_x; finite_arith).
  pose proof (nonzero_finite _ Hd).
  assert (finite (attraction_force (dist_of (nsub (x b) (x a)) (nsub (y b) (y a)))))
    by (unfold attraction_force; finite_arith).
  repeat apply Forall_alter; try done; intros n _ Hn;
    [ apply tsx_finite_vx_add | apply tsx_finite_vy_add ]; finite_arith.
Qed.

Lemma tsx_gravity_node_finite (n : node) :
  tsx_finite n -> tsx_finite (gravity_node n).
Proof.
  intros (? & ? & ? & ?). unfold gravity_node, tsx_finite, clamp.
  cbn [x y vx vy set_x set_y set_vx set_vy]. repeat split; finite_arith.
Qed.

Lemma tsx_simulate_finite (prev : list node) :
  Forall tsx_finite prev -> Forall tsx_finite (simulate prev).
Proof.
  intros Hl. unfold simulate, gravity. apply Forall_fmap.
  eapply Forall_impl; [|apply tsx_gravity_node_finite].
  unfold attraction. apply foldl_preserves.
  - intros l k Hfin. unfold attract_node.
    destruct (l !! k) as [n|]; [|done].
    apply foldl_preserves; [|done]. intros; by apply tsx_attract_conn_finite.
  - unfold repulsion. apply foldl_preserves; [|done].
    intros l i Hfin. unfold repulse_from.
    apply foldl_preserves; [|done]. intros; by apply tsx_repulse_pair_finite.
Qed.
End TsxFiniteness.

(** C3 (as amended): when arithmetic on finite values is exact (no
    overflow) and the edge list resolves in own properties, a tick of
    [NetworkGraph.jsx] ends normally, and a tick of either engine takes
    nodes whose positions and velocities are finite to nodes whose
    positions and velocities are finite: every division of the tick is
    by a distance that was floored at 1 ([NetworkGraph.jsx]) or replaced
    by 1 when 0 ([NetworkPage.tsx]), or by a non-zero constant. *)
Theorem C3_tick_keeps_finite
    (nodes : list (NetworkGraph.GraphNode XReal.xreal)) (edges : list BackendEdge)
    (prev : list (NetworkNode XReal.xreal)) :
  jsx_plain nodes edges ->
  Forall jsx_finite nodes -> Forall tsx_finite prev ->
  (exists nodes', NodeMap.simulate nodes edges = PlainObject.Normal nodes' /\
                  Forall jsx_finite nodes') /\
  Forall tsx_finite (NetworkPage.simulate prev).
Proof.
  intros Hpl Hn Hp. split; [|by apply tsx_simulate_finite].
  eexists. split; [by apply simulate_own|]. by apply jsx_simulate_finite.
Qed.

(** C3, as stated, fails on IEEE doubles: the two nodes of [FarPair] are
    finite, yet after one tick of either engine every position and
    velocity component that the repulsion touched is NaN; nothing
    replaced the non-finite force by zero. *)
Lemma C3_overflow_propagates_nan :
  forallb jsx_finite64 FarPair.jsx = true /\
  (fun n => (PrimFloat.is_nan (NetworkGraph.vx n), PrimFloat.is_nan (NetworkGraph.x n)))
    <$> PlainObject.state (NodeMap.simulate FarPair.jsx [])
  = [(true, true); (true, true)] /\
  forallb tsx_finite64 FarPair.tsx = true /\
  (fun n => (PrimFloat.is_nan (vx n), PrimFloat.is_nan (x n)))
    <$> NetworkPage.simulate FarPair.tsx = [(true, true); (true, true)].
Proof. repeat split; vm_compute; reflexivity. Qed.

(** Nor does an edge whose end is an inherited name leave finite nodes
    finite: [nodeMap["constructor"]] is truthy and has no [x], so the
    edge from ["constructor"] to [b] makes the velocity and the position
    of [b] NaN, with no overflow involved. *)
Lemma jsx_inherited_end_gives_nan :
  forallb jsx_finite64 rounding_pair = true /\
  (fun n => (PrimFloat.is_nan (NetworkGraph.vx n), PrimFloat.is_nan (NetworkGraph.x n)))
    <$> PlainObject.state
          (NodeMap.simulate rounding_pair
             [ {| be_from := "constructor"; be_to := "b";
                  be_label := "mentioned_in" |} ])
  = [(false, false); (true, true)].
Proof. split; vm_compute; reflexivity. Qed.

Lemma finite_pair_jsx_finite : Forall jsx_finite finite_pair_jsx.
Proof. repeat constructor; simpl; exact I. Qed.

Lemma C3_tick_keeps_finite_witness :
  let edges := [ {| be_from := "a"; be_to := "b"; be_label := "mentioned_in" |} ] in
  jsx_plain finite_pair_jsx edges /\
  Forall jsx_finite finite_pair_jsx /\ Forall tsx_finite finite_pair_tsx /\
  (exists nodes',
     NodeMap.simulate finite_pair_jsx edges = PlainObject.Normal nodes' /\
     Forall jsx_finite nodes') /\
  Forall tsx_finite (NetworkPage.simulate finite_pair_tsx).
Proof.
  intros edges.
  assert (Hpl : jsx_plain finite_pair_jsx edges).
  { split; [exact finite_pair_jsx_ids|].
    repeat constructor; right; reflexivity. }
  assert (Ht : Forall tsx_finite finite_pair_tsx)
    by (repeat constructor; simpl; exact I).
  split; [exact Hpl|]. split; [exact finite_pair_jsx_finite|].
  split; [exact Ht|].
  exact (C3_tick_keeps_finite finite_pair_jsx edges finite_pair_tsx
           Hpl finite_pair_jsx_finite Ht).
Defined.

(** ** SimulationEngine: self-loops *)

Section ZeroOffset.
Import XReal.




End ZeroOffset.

Section JsxSelfLoop.
Import XReal NetworkGraph.
Local Abbreviation node := (GraphNode xreal).







End JsxSelfLoop.

Section TsxConnections.
Import NetworkPage.
Context {num : Type} `{JSNumber num}.
Local Abbreviation node := (NetworkNode num).
Local Abbreviation ids := (fmap (M := list) (@id num)).













End TsxConnections.

Section TsxSelfLoop.
Import XReal NetworkPage.
Local Abbreviation node := (NetworkNode xreal).
Local Abbreviation ids := (fmap (M := list) (@id xreal)).









End TsxSelfLoop.




(** * Further properties of the code *)

(** ** The viewport *)

Section Doubles.
Import SpecFloat.

Lemma SFcompare_antisym (a b : spec_float) (c : comparison) :
  SFcompare a b = Some c -> SFcompare b a = Some (CompOpp c).
Proof.
  destruct a as [sa|sa| |sa ma ea], b as [sb|sb| |sb mb eb]; simpl;
    try discriminate; intros [= <-]; try done;
    try (by destruct sa); try (by destruct sb); try (by destruct sa, sb).
  f_equal. destruct sa, sb; try done.
  - rewrite (Z.compare_antisym ea eb).
    destruct (ea ?= eb)%Z; simpl; try done.
    by rewrite (Pos.compare_cont_antisym ma mb Eq).
  - rewrite (Z.compare_antisym ea eb).
    destruct (ea ?= eb)%Z; simpl; try done.
    by rewrite (Pos.compare_cont_antisym ma mb Eq).
Qed.

Lemma float_not_nan (a : PrimFloat.float) :
  PrimFloat.is_nan a = false ->
  SFcompare (FloatOps.Prim2SF a) (FloatOps.Prim2SF a) = Some Eq.
Proof.
  unfold PrimFloat.is_nan. rewrite FloatAxioms.eqb_spec. unfold SFeqb.
  destruct (SFcompare _ _) as [[| |]|]; done.
Qed.

Lemma float_comparable (a b : PrimFloat.float) :
  PrimFloat.is_nan a = false -> PrimFloat.is_nan b = false ->
  exists c, SFcompare (FloatOps.Prim2SF a) (FloatOps.Prim2SF b) = Some c.
Proof.
  intros Ha%float_not_nan Hb%float_not_nan.
  destruct (FloatOps.Prim2SF a), (FloatOps.Prim2SF b); try done;
    simpl; eauto.
Qed.

Lemma leb_refl (a : PrimFloat.float) :
  PrimFloat.is_nan a = false -> PrimFloat.leb a a = true.
Proof.
  intros Ha%float_not_nan. rewrite FloatAxioms.leb_spec. unfold SFleb.
  by rewrite Ha.
Qed.

Lemma ltb_leb (a b : PrimFloat.float) :
  PrimFloat.ltb a b = true -> PrimFloat.leb a b = true.
Proof.
  rewrite FloatAxioms.ltb_spec, FloatAxioms.leb_spec. unfold SFltb, SFleb.
  destruct (SFcompare _ _) as [[| |]|]; done.
Qed.

Lemma not_ltb_leb (a b : PrimFloat.float) :
  PrimFloat.is_nan a = false -> PrimFloat.is_nan b = false ->
  PrimFloat.ltb a b = false -> PrimFloat.leb b a = true.
Proof.
  intros Ha Hb. destruct (float_comparable a b Ha Hb) as [c Hc].
  rewrite FloatAxioms.ltb_spec, FloatAxioms.leb_spec. unfold SFltb, SFleb.
  rewrite (SFcompare_antisym _ _ _ Hc), Hc. by destruct c.
Qed.

(** [Math.max(lo, Math.min(hi, v))] is NaN or lies between [lo] and
    [hi]. *)
Lemma clamp_range (lo hi v : PrimFloat.float) :
  PrimFloat.leb lo hi = true ->
  let r := F64.max lo (F64.min hi v) in
  PrimFloat.is_nan r = true \/
  (PrimFloat.leb lo r = true /\ PrimFloat.leb r hi = true).
Proof.
  intros Hle r. subst r. unfold F64.min.
  destruct (PrimFloat.is_nan hi) eqn:Hhi; simpl.
  { left. unfold F64.max. by rewrite orb_true_r. }
  destruct (PrimFloat.is_nan v) eqn:Hv; simpl.
  { left. unfold F64.max. by rewrite orb_true_r. }
  assert (Hm : exists m, PrimFloat.is_nan m = false /\
                 PrimFloat.leb m hi = true /\
                 (if PrimFloat.ltb hi v then hi
                  else if PrimFloat.ltb v hi then v
                  else if PrimFloat.get_sign hi then hi else v) = m).
  { destruct (PrimFloat.ltb hi v) eqn:H1.
    - exists hi. by rewrite leb_refl.
    - assert (PrimFloat.leb v hi = true) by by apply not_ltb_leb.
      destruct (PrimFloat.ltb v hi); [by exists v|].
      destruct (PrimFloat.get_sign hi); [|by exists v].
      exists hi. by rewrite leb_refl. }
  destruct Hm as (m & Hmn & Hmh & ->). unfold F64.max.
  destruct (PrimFloat.is_nan lo) eqn:Hlo; simpl; [by left|].
  rewrite Hmn. right.
  destruct (PrimFloat.ltb lo m) eqn:H1.
  { split; [by apply ltb_leb|done]. }
  assert (Hll : PrimFloat.leb lo lo = true) by by apply leb_refl.
  destruct (PrimFloat.ltb m lo) eqn:H2; [done|].
  destruct (PrimFloat.get_sign lo); [|done].
  split; [|done]. by apply not_ltb_leb.
Qed.
End Doubles.

(** X5: after a tick of [NetworkPage.tsx], on doubles, every coordinate
    of every node is NaN or lies in the viewport rectangle
    [40, 760] x [40, 560], wherever the nodes were and however fast they
    moved. *)
Theorem X5_tsx_tick_inside_viewport (prev : list (NetworkNode PrimFloat.float)) :
  Forall (fun n =>
            (PrimFloat.is_nan (x n) = true \/
             (PrimFloat.leb (nofZ 40) (x n) = true /\
              PrimFloat.leb (x n) (nofZ 760) = true)) /\
            (PrimFloat.is_nan (y n) = true \/
             (PrimFloat.leb (nofZ 40) (y n) = true /\
              PrimFloat.leb (y n) (nofZ 560) = true)))
         (NetworkPage.simulate prev).
Proof.
  unfold NetworkPage.simulate, NetworkPage.gravity. apply Forall_fmap.
  apply Forall_forall. intros n _. unfold NetworkPage.gravity_node.
  cbn [x y NetworkPage.set_x NetworkPage.set_y]. unfold NetworkPage.clamp.
  split; apply clamp_range; vm_compute; reflexivity.
Qed.

(** ** The seed layout *)

Lemma seed_bounds (c r : R) (o : Z) :
  (-1 <= c <= 1)%R -> (0 <= r < 1)%R ->
  (IZR o - 200 <= IZR o + c * 200 + r * 40 <= IZR o + 240)%R.
Proof. intros. lra. Qed.

(** X13: when [Math.random] returns values in [0, 1), every node seeded
    by [adaptGraphToNodes] and by [initGraph] is at rest at a position
    with 200 <= x <= 640 and 100 <= y <= 540, inside the viewport. *)
Theorem X13_seed_layout_inside_viewport
    (random : nat -> R) (graph : BackendGraphData) :
  (forall k, (0 <= random k < 1)%R) ->
  Forall (fun n : NetworkNode R =>
            (200 <= x n <= 640)%R /\ (100 <= y n <= 540)%R /\
            vx n = 0%R /\ vy n = 0%R)
         (adaptGraphToNodes cos sin PI random graph) /\
  Forall (fun n : NetworkGraph.GraphNode R =>
            (200 <= NetworkGraph.x n <= 640)%R /\
            (100 <= NetworkGraph.y n <= 540)%R /\
            NetworkGraph.vx n = 0%R /\ NetworkGraph.vy n = 0%R)
         (NetworkGraphJsx.initGraph cos sin PI random graph).1.
Proof.
  intros Hr. split; apply Forall_forall; intros n Hn.
  - unfold adaptGraphToNodes in Hn.
    apply elem_of_lookup_imap in Hn as (i & bn & -> & _).
    pose proof (Hr (2 * i)%nat) as Hrx. pose proof (Hr (2 * i + 1)%nat) as Hry.
    cbn in Hrx, Hry |- *.
    set (a := (_ / _ * PI * 2)%R).
    pose proof (seed_bounds (cos a) _ 400 (COS_bound a) Hrx).
    pose proof (seed_bounds (sin a) _ 300 (SIN_bound a) Hry).
    repeat split; lra.
  - unfold NetworkGraphJsx.initGraph in Hn. cbn [fst] in Hn.
    apply elem_of_lookup_imap in Hn as (i & bn & -> & _).
    pose proof (Hr (2 * i)%nat) as Hrx. pose proof (Hr (2 * i + 1)%nat) as Hry.
    cbn in Hrx, Hry |- *.
    set (a := (_ / _ * PI * 2)%R).
    pose proof (seed_bounds (cos a) _ 400 (COS_bound a) Hrx).
    pose proof (seed_bounds (sin a) _ 300 (SIN_bound a) Hry).
    repeat split; lra.
Qed.

Lemma X13_seed_layout_inside_viewport_witness :
  (forall k : nat, (0 <= 0 < 1)%R) /\
  Forall (fun n : NetworkNode R =>
            (200 <= x n <= 640)%R /\ (100 <= y n <= 540)%R /\
            vx n = 0%R /\ vy n = 0%R)
         (adaptGraphToNodes cos sin PI (fun _ => 0%R) duplicate_payload).
Proof.
  assert (Hr : forall k : nat, (0 <= 0 < 1)%R) by (intros; lra).
  split; [exact Hr|].
  exact (proj1 (X13_seed_layout_inside_viewport (fun _ => 0%R)
                  duplicate_payload Hr)).
Defined.

(** ** The fetched network *)

Section Fetch.
Context {num : Type} `{JSNumber num}.
Variables (ncos nsin : num -> num) (nPI : num) (random : nat -> num).
Local Abbreviation fetched := (NetworkPageTsx.onNetworkFetched ncos nsin nPI random).

(** X14: the fetch callback of [NetworkPage.tsx] never empties the
    graph on display: if there were nodes before it, there are nodes
    after it, whatever the payload; a payload without nodes (absent or
    empty list) leaves nodes and report count as they were. *)
Theorem X14_fetch_never_empties (graph : BackendGraphData)
    (es : option (list BackendEdge)) (tr : option Z)
    (st : NetworkPageTsx.PageState (num := num)) :
  NetworkPageTsx.st_nodes st <> [] ->
  NetworkPageTsx.st_nodes (fetched graph st) <> [] /\
  fetched {| bg_nodes := None; bg_edges := es; bg_total_reports := tr |} st = st /\
  fetched {| bg_nodes := Some []; bg_edges := es; bg_total_reports := tr |} st = st.
Proof.
  intros Hne. split; [|done].
  unfold NetworkPageTsx.onNetworkFetched.
  destruct (bg_nodes graph) as [[|bn bns]|] eqn:Hns; try done.
  cbn. unfold adaptGraphToNodes. rewrite Hns. simpl. done.
Qed.
End Fetch.

Lemma X14_fetch_never_empties_witness :
  let st := {| NetworkPageTsx.st_nodes := self_linked_pair;
               NetworkPageTsx.st_totalReports := 0%Z |} in
  NetworkPageTsx.st_nodes st <> [] /\
  NetworkPageTsx.st_nodes
    (NetworkPageTsx.onNetworkFetched cos sin PI (fun _ => 0%R)
       {| bg_nodes := Some []; bg_edges := None; bg_total_reports := None |} st)
  <> [].
Proof.
  intros st.
  assert (Hne : NetworkPageTsx.st_nodes st <> []) by discriminate.
  split; [exact Hne|].
  exact (proj1 (X14_fetch_never_empties cos sin PI (fun _ => 0%R)
                  {| bg_nodes := Some []; bg_edges := None;
                     bg_total_reports := None |} None None st Hne)).
Defined.

(** ** Radius and glow in NetworkGraph.jsx *)

Lemma nor_zero_R (c : R) : nor c (nofZ 0) = c.
Proof.
  unfold nor. simpl. unfold Rtruthy. destruct (Req_dec_T c 0); [|done].
  by subst.
Qed.

(** X15: in [NetworkGraph.jsx] a node drawn with the large radius 16
    always gets the glow, a node that gets the glow is drawn with radius
    12 or 16, and a node without a report count is drawn small (radius
    8) and without glow. *)
Theorem X15_jsx_glow_and_radius (reportCount : option R) :
  (NetworkGraphJsx.node_radius reportCount = 16%Z ->
     NetworkGraphJsx.has_glow reportCount = true) /\
  (NetworkGraphJsx.has_glow reportCount = true ->
     (12 <= NetworkGraphJsx.node_radius reportCount)%Z) /\
  (reportCount = None ->
     NetworkGraphJsx.node_radius reportCount = 8%Z /\
     NetworkGraphJsx.has_glow reportCount = false).
Proof.
  unfold NetworkGraphJsx.node_radius, NetworkGraphJsx.has_glow,
    NetworkGraphJsx.reportCount_gt.
  destruct reportCount as [c|].
  - rewrite nor_zero_R. simpl. unfold Rltb.
    destruct (Rlt_dec 10 c), (Rlt_dec 3 c), (Rlt_dec 5 c);
      repeat split; intros; try done; try lia; lra.
  - simpl. unfold Rltb. destruct (Rlt_dec 5 0); [lra|].
    repeat split; intros; done.
Qed.

Lemma X15_jsx_glow_and_radius_witness :
  NetworkGraphJsx.node_radius (Some 11%R) = 16%Z /\
  NetworkGraphJsx.has_glow (Some 11%R) = true.
Proof.
  assert (Hr : NetworkGraphJsx.node_radius (Some 11%R) = 16%Z).
  { unfold NetworkGraphJsx.node_radius, NetworkGraphJsx.reportCount_gt.
    simpl. unfold Rltb. destruct (Rlt_dec 10 11); [done|lra]. }
  split; [exact Hr|].
  exact (proj1 (X15_jsx_glow_and_radius (Some 11%R)) Hr).
Defined.

(** ** The lines of NetworkPage.tsx *)

Section TsxLines.
Import NetworkPage NetworkPageTsx.
Context {num : Type} `{JSNumber num}.
Local Abbreviation node := (NetworkNode num).

Lemma draw_edges_elem (nodes : list node) (seg : (num * num) * (num * num)) :
  seg ∈ draw_edges nodes <->
  exists a c b, a ∈ nodes /\ c ∈ connections a /\
                find_node nodes c = Some b /\
                seg = ((x a, y a), (x b, y b)).
Proof.
  unfold draw_edges. rewrite list_elem_of_bind. split.
  - intros (a & (c & Hc & Hseg)%list_elem_of_omap & Ha).
    unfold conn_segment in Hseg.
    destruct (find_node nodes c) as [b|] eqn:Hb; [|done].
    injection Hseg as <-. by exists a, c, b.
  - intros (a & c & b & Ha & Hc & Hb & ->). exists a. split; [|done].
    apply list_elem_of_omap. exists c. split; [done|].
    unfold conn_segment. by rewrite Hb.
Qed.

Lemma find_node_Some (nodes : list node) (c : string) (b : node) :
  find_node nodes c = Some b -> b ∈ nodes /\ id b = c.
Proof.
  unfold find_node. intros ([i b'] & (Hi & Hb & _)%list_find_Some & ->)%fmap_Some.
  split; [by eapply list_elem_of_lookup_2|done].
Qed.

Lemma find_node_self (nodes : list node) (a : node) :
  NoDup (id <$> nodes) -> a ∈ nodes -> find_node nodes (id a) = Some a.
Proof.
  intros Hnd (i & Hi)%list_elem_of_lookup. unfold find_node.
  apply fmap_Some. exists (i, a). split; [|done].
  apply list_find_Some. split; [done|]. split; [done|].
  intros j y Hj Hlt Hy.
  assert (i = j); [|lia].
  apply (NoDup_lookup _ _ _ (id a) Hnd); rewrite list_lookup_fmap.
  - by rewrite Hi.
  - by rewrite Hj; simpl; rewrite Hy.
Qed.

Lemma draw_edges_reverse (nodes : list node) (p q : num * num) :
  NoDup (id <$> nodes) ->
  (forall a b : node, a ∈ nodes -> b ∈ nodes ->
     id b ∈ connections a -> id a ∈ connections b) ->
  (p, q) ∈ draw_edges nodes -> (q, p) ∈ draw_edges nodes.
Proof.
  intros Hnd Hsym (a & c & b & Ha & Hc & Hb & [= -> ->])%draw_edges_elem.
  apply find_node_Some in Hb as [Hb <-].
  apply draw_edges_elem. exists b, (id a), a.
  split; [done|]. split; [|split; [by apply find_node_self|done]].
  by apply Hsym.
Qed.

(** X16: when the node ids are pairwise distinct and adjacency is
    symmetric, [draw] of [NetworkPage.tsx] strokes every line in both
    directions: with each line it also strokes the line between the same
    points the other way round. *)
Theorem X16_tsx_lines_drawn_both_ways (nodes : list node) :
  NoDup (id <$> nodes) ->
  Forall (fun a : node =>
            Forall (fun b : node =>
                      id b ∈ connections a -> id a ∈ connections b) nodes)
         nodes ->
  Forall (fun seg => (seg.2, seg.1) ∈ draw_edges nodes) (draw_edges nodes).
Proof.
  intros Hnd Hsym. apply Forall_forall. intros [p q] Hseg.
  apply (draw_edges_reverse nodes p q); [done| |done].
  intros a b Ha Hb. rewrite Forall_forall in Hsym. specialize (Hsym a Ha).
  rewrite Forall_forall in Hsym. by apply Hsym.
Qed.
End TsxLines.

Lemma X16_tsx_lines_drawn_both_ways_witness :
  NoDup (id <$> self_linked_pair) /\
  Forall (fun seg => (seg.2, seg.1) ∈ NetworkPageTsx.draw_edges self_linked_pair)
         (NetworkPageTsx.draw_edges self_linked_pair).
Proof.
  assert (Hnd : NoDup (id <$> self_linked_pair)).
  { simpl. apply NoDup_cons. split; [|apply NoDup_singleton].
    intros [=]%list_elem_of_singleton. }
  split; [exact Hnd|].
  apply (X16_tsx_lines_drawn_both_ways self_linked_pair Hnd).
  unfold self_linked_pair.
  repeat first [apply Forall_nil_2 | apply Forall_cons_2];
    simpl; intros Hin;
    first [by repeat constructor | by apply list_elem_of_singleton in Hin].
Defined.

Section AdaptedLines.
Variables (random : nat -> R).

Lemma adapt_ids (graph : BackendGraphData) :
  id <$> adaptGraphToNodes cos sin PI random graph
  = bn_id <$> default [] (bg_nodes graph).
Proof.
  unfold adaptGraphToNodes. rewrite fmap_imap.
  rewrite <- imap_const. by apply imap_ext.
Qed.

(** X17: for a payload whose node ids are pairwise distinct, the graph
    made by [adaptGraphToNodes] is drawn by [NetworkPage.tsx] with every
    line stroked in both directions. *)
Theorem X17_adapted_lines_drawn_both_ways (graph : BackendGraphData) :
  NoDup (bn_id <$> default [] (bg_nodes graph)) ->
  let nodes := adaptGraphToNodes cos sin PI random graph in
  Forall (fun seg => (seg.2, seg.1) ∈ NetworkPageTsx.draw_edges nodes)
         (NetworkPageTsx.draw_edges nodes).
Proof.
  intros Hnd nodes. apply Forall_forall. intros [p q] Hseg.
  apply (draw_edges_reverse nodes p q); [|  |done].
  - unfold nodes. by rewrite adapt_ids.
  - intros a b Ha Hb.
    rewrite (adapt_connections _ _ _ _ graph a (id b) Ha).
    rewrite (adapt_connections _ _ _ _ graph b (id a) Hb).
    intros (e & He & Hl). exists e. split; [done|]. by apply links_sym.
Qed.
End AdaptedLines.

Lemma X17_adapted_lines_drawn_both_ways_witness :
  NoDup (bn_id <$> default [] (bg_nodes scenario_payload)) /\
  let nodes := adaptGraphToNodes cos sin PI (fun _ => 0%R) scenario_payload in
  Forall (fun seg => (seg.2, seg.1) ∈ NetworkPageTsx.draw_edges nodes)
         (NetworkPageTsx.draw_edges nodes).
Proof.
  assert (Hnd : NoDup (bn_id <$> default [] (bg_nodes scenario_payload))).
  { simpl. apply NoDup_cons. split; [|apply NoDup_singleton].
    intros [=]%list_elem_of_singleton. }
  split; [exact Hnd|].
  exact (X17_adapted_lines_drawn_both_ways (fun _ => 0%R) scenario_payload Hnd).
Defined.

(** ** The scan and threat adapters *)

Section ScanAdapter.
Import Adapters.
Context {num : Type} `{JSNumber num}.
Variables (nround : num -> num) (today : string).
Local Abbreviation adaptScan := (adaptScanResult nround today).

Lemma suspicious_label_cases (l : string) :
  suspicious_label l ->
  l = "phone_number" \/ l = "url" \/ l = "company_name" \/ l = "email_address".
Proof.
  unfold suspicious_label. rewrite !elem_of_cons, elem_of_nil. tauto.
Qed.

(** X18: every suspicious item of an adapted scan comes from an entity
    labelled phone_number, url, email_address or company_name; it is
    typed phone, url, url and company respectively, so the catch-all
    "company" is reached by company_name only, and the item type is the
    node type that [mapNodeType] gives the same label. *)
Theorem X18_suspicious_items_typed (backend : BackendScanResult num) :
  Forall (fun item : string * ItemType =>
            exists e, e ∈ default [] (bs_entities backend) /\
              item.1 = ent_text e /\
              mapNodeType (ent_label e) = node_type_of_item item.2 /\
              (item.2 = item_phone <-> ent_label e = "phone_number") /\
              (item.2 = item_url <->
                 ent_label e = "url" \/ ent_label e = "email_address") /\
              (item.2 = item_company <-> ent_label e = "company_name"))
         (sr_suspiciousItems (adaptScan backend)).
Proof.
  apply Forall_forall. intros item Hitem. cbn in Hitem.
  apply list_elem_of_fmap in Hitem as (e & -> & [Hl He]%list_elem_of_filter).
  exists e. split; [done|]. split; [done|]. cbn [fst snd].
  apply suspicious_label_cases in Hl as [Hl|[Hl|[Hl|Hl]]]; rewrite Hl;
    repeat split; try done; intros;
    first [by left | by right | by destruct_or!].
Qed.

(** X19: the adapted verdict is "scam" exactly for the level RED and
    "safe" exactly for the level GREEN; every other level, and a scan
    without verdict, is "caution". *)
Theorem X19_verdict_mapping (backend : BackendScanResult num) :
  let level := default "" (bv_level <$> bs_verdict backend) in
  (sr_verdict (adaptScan backend) = scam <-> level = "RED") /\
  (sr_verdict (adaptScan backend) = safe <-> level = "GREEN") /\
  (level <> "RED" -> level <> "GREEN" ->
     sr_verdict (adaptScan backend) = caution).
Proof.
  intros level. cbn [adaptScanResult sr_verdict]. fold level.
  unfold levelToVerdict, sor.
  destruct (decide (level = "")) as [->|Hne].
  { vm_compute. repeat split; intros; done. }
  destruct (decide (level = "RED")) as [->|Hr];
    [vm_compute; repeat split; intros; done|].
  destruct (decide (level = "GREEN")) as [->|Hg];
    [vm_compute; repeat split; intros; done|].
  destruct (decide (level = "YELLOW")) as [->|Hy];
    [vm_compute; repeat split; intros; done|].
  destruct (decide (level = "pending")) as [->|Hp];
    [vm_compute; repeat split; intros; done|].
  rewrite !lookup_insert_ne, lookup_singleton_ne by done. simpl.
  repeat split; intros; done.
Qed.
End ScanAdapter.

Lemma Rround_range (r : R) (lo hi : Z) :
  (IZR lo <= r <= IZR hi)%R ->
  (lo <= Zfloor (r + / 2) <= hi)%Z.
Proof.
  intros [Hlo Hhi]. pose proof (Zfloor_bound (r + / 2)) as [Hf1 Hf2].
  split.
  - apply Z.lt_succ_r, lt_IZR. rewrite succ_IZR. lra.
  - apply Z.lt_succ_r, lt_IZR. rewrite succ_IZR. lra.
Qed.

(** X20: for a verdict whose confidence lies between 0 and 1, the
    adapted confidence is a whole number between 0 and 100. *)
Theorem X20_confidence_percent (today : string)
    (backend : Adapters.BackendScanResult R) :
  let c := default 0%R (Adapters.bv_confidence <$> Adapters.bs_verdict backend) in
  (0 <= c <= 1)%R ->
  exists z : Z,
    Adapters.sr_confidence
      (Adapters.adaptScanResult Adapters.Rround today backend) = IZR z /\
    (0 <= z <= 100)%Z.
Proof.
  intros c Hc. cbn [Adapters.adaptScanResult Adapters.sr_confidence].
  change (default (nofZ 0) (Adapters.bv_confidence <$> Adapters.bs_verdict backend))
    with c.
  rewrite nor_zero_R. unfold Adapters.Rround.
  exists (Zfloor (nmul c (nofZ 100) + / 2)). split; [done|].
  apply Rround_range. simpl. lra.
Qed.

Lemma X20_confidence_percent_witness :
  (0 <= 97 / 100 <= 1)%R /\
  exists z : Z,
    Adapters.sr_confidence
      (Adapters.adaptScanResult Adapters.Rround "2026-02-27" sample_scan) = IZR z /\
    (0 <= z <= 100)%Z.
Proof.
  assert (Hc : (0 <= 97 / 100 <= 1)%R) by lra.
  split; [exact Hc|].
  exact (X20_confidence_percent "2026-02-27" sample_scan Hc).
Defined.

Section Summaries.
Import Adapters.
Context {num : Type} `{JSNumber num}.

Lemma summary_of_text (t : string) :
  String.length (String.substring 0 80 t +:+ "...")
  = (Nat.min 80 (String.length t) + 3)%nat.
Proof. by rewrite append_length, substring0_length. Qed.

(** X21: the input summary of a scan is the first 80 characters of the
    visual text when that is non-empty, else of the voice transcript
    when that is non-empty, in both cases followed by "..." even when
    nothing was cut off, so it has at most 83 characters; without either
    text it is "Scan " followed by the scan id. *)
Theorem X21_input_summary (backend : BackendScanResult num) :
  let visual := truthy_field (bs_visual backend ≫= (.!! "text_content")) in
  let voice := truthy_field (bs_voice backend ≫= (.!! "transcript")) in
  let s := getInputSummary backend in
  (exists t, (visual = Some t \/ (visual = None /\ voice = Some t)) /\
             t <> "" /\
             s = String.substring 0 80 t +:+ "..." /\
             String.length s = (Nat.min 80 (String.length t) + 3)%nat /\
             (String.length s <= 83)%nat) \/
  (visual = None /\ voice = None /\ s = "Scan " +:+ bs_scan_id backend).
Proof.
  intros visual voice s. unfold s, getInputSummary. fold visual voice.
  assert (Hne : forall o t, truthy_field o = Some t -> t <> "").
  { intros [u|] t; simpl; [|done]. case_decide; [done|]. by intros [= <-]. }
  destruct visual as [t|] eqn:Hv.
  - left. exists t. split; [by left|]. split; [by eapply Hne|].
    split; [done|]. rewrite summary_of_text. split; [done|lia].
  - destruct voice as [t|] eqn:Ho.
    + left. exists t. split; [by right|]. split; [by eapply Hne|].
      split; [done|]. rewrite summary_of_text. split; [done|lia].
    + by right.
Qed.

Variable nshow : num -> string.

#[local] Instance feed_id_inj : Inj (=) (=) (fun i : nat => "t-" +:+ pretty i).
Proof.
  intros i j Hij. apply (inj (String.app "t-")) in Hij. by apply (inj pretty).
Qed.

(** X22: the threat feed has one item per threat, in order; the item at
    index i has the id "t-i", and no two items share an id. *)
Theorem X22_feed_ids (threats : list (BackendThreat num)) :
  feed_id <$> adaptThreatsToFeed nshow threats
  = (fun i : nat => "t-" +:+ pretty i) <$> seq 0 (length threats) /\
  NoDup (feed_id <$> adaptThreatsToFeed nshow threats).
Proof.
  assert (Hids : feed_id <$> adaptThreatsToFeed nshow threats
                 = (fun i : nat => "t-" +:+ pretty i) <$> seq 0 (length threats)).
  { unfold adaptThreatsToFeed. rewrite fmap_imap.
    rewrite <- (imap_seq_0 threats (fun i : nat => "t-" +:+ pretty i)).
    by apply imap_ext. }
  split; [done|]. rewrite Hids.
  apply (NoDup_fmap_2 _), NoDup_seq.
Qed.

(** X23: the severity of a feed item and the radius [NetworkGraph.jsx]
    draws for the same report count use the same tiers: "high" goes with
    radius 16, "medium" with 12 and "low" with 8. *)
Theorem X23_severity_matches_radius (reports : num) :
  (severity_of reports = high <->
     NetworkGraphJsx.node_radius (Some reports) = 16%Z) /\
  (severity_of reports = medium <->
     NetworkGraphJsx.node_radius (Some reports) = 12%Z) /\
  (severity_of reports = low <->
     NetworkGraphJsx.node_radius (Some reports) = 8%Z).
Proof.
  unfold severity_of, NetworkGraphJsx.node_radius,
    NetworkGraphJsx.reportCount_gt.
  destruct (nltb (nofZ 10) reports), (nltb (nofZ 3) reports);
    repeat split; intros; done.
Qed.
End Summaries.

(** ** The order of connections *)

Lemma edgeMap_get_step_list (m : gmap string (list string)) (e : BackendEdge)
    (k : string) :
  edgeMap_get (edgeMap_step m e) k = edgeMap_get m k ++ far_ends k [e].
Proof.
  unfold edgeMap_step, far_ends. simpl.
  rewrite !edgeMap_get_push, !edgeMap_get_init, app_nil_r.
  repeat case_decide; try congruence; simpl;
    by rewrite <- ?app_assoc, ?app_nil_r.
Qed.

Lemma edgeMap_get_foldl_list (es : list BackendEdge)
    (m : gmap string (list string)) (k : string) :
  edgeMap_get (foldl edgeMap_step m es) k = edgeMap_get m k ++ far_ends k es.
Proof.
  revert m. induction es as [|e es IH]; intros m; simpl.
  - by rewrite app_nil_r.
  - rewrite IH, edgeMap_get_step_list, <- app_assoc. f_equal.
    unfold far_ends. simpl. by rewrite app_nil_r, <- app_assoc.
Qed.

Section ConnectionOrder.
Context {num : Type} `{JSNumber num}.
Variables (ncos nsin : num -> num) (nPI : num) (random : nat -> num).

(** X24: the [connections] of an adapted node are the far ends of the
    payload edges that touch its id, in the order in which the payload
    first mentions them, each once. *)
Theorem X24_connections_in_payload_order (graph : BackendGraphData) :
  Forall (fun n : NetworkNode num =>
            connections n
            = set_spread (far_ends (id n) (default [] (bg_edges graph))))
         (adaptGraphToNodes ncos nsin nPI random graph).
Proof.
  apply Forall_forall. intros n (bn & _ & -> & ->)%adapt_elem.
  unfold build_edgeMap. rewrite edgeMap_get_foldl_list.
  unfold edgeMap_get at 1. by rewrite lookup_empty.
Qed.
End ConnectionOrder.



